(** * Remote infra orchestrator: a model of [orchestrator.py]

    The program reads a config of servers, runs one health check per server
    (an HTTP probe or a remote command over SSH), restarts the service of
    every unhealthy server and posts a note to a Discord webhook.

    The model is a shallow embedding.  Config data are Python values (the
    result of [yaml.safe_load] / [json.load]); every function of the source is
    a computation in a small monad that carries the Python exception it may
    raise and the list of effects it performs on the outside world; what the
    outside world answers (HTTP responses, SSH outcomes, the environment, the
    file system) is a parameter, the record [World]. *)

From Stdlib Require Import ZArith Ascii String.
From stdpp Require Import gmap strings list pretty.

#[local] Set Warnings "-register-all".
#[local] Open Scope Z_scope.

(** ** Python values *)

(** What a YAML or JSON document loads to.  Floats are left out (no field the
    program reads is meant to hold one) and dict keys are strings, as in every
    lookup of the source. *)
Inductive value : Type :=
  | VNone
  | VBool (b : bool)
  | VInt (z : Z)
  | VStr (s : string)
  | VList (l : list value)
  | VDict (d : gmap string value).

(** Exceptions, all of them subclasses of [Exception].  [LibError] is an
    exception raised inside a library ([requests], [paramiko], [yaml], [json],
    [re], [os]); it carries its [str()]. *)
Inductive exn : Type :=
  | KeyError (key : string)
  | TypeError (msg : string)
  | AttributeError (msg : string)
  | ValueError (msg : string)
  | LibError (msg : string).

Inductive result (A : Type) : Type :=
  | Ret (a : A)
  | Raise (e : exn).
Arguments Ret {A} a.
Arguments Raise {A} e.

Definition is_ret {A} (r : result A) : bool :=
  match r with Ret _ => true | Raise _ => false end.

(** [str(e)]: a [KeyError] prints the repr of its key. *)
Definition exn_str (e : exn) : string :=
  match e with
  | KeyError k => "'" +:+ k +:+ "'"
  | TypeError m | AttributeError m | ValueError m | LibError m => m
  end.

Definition type_name (v : value) : string :=
  match v with
  | VNone => "NoneType"
  | VBool _ => "bool"
  | VInt _ => "int"
  | VStr _ => "str"
  | VList _ => "list"
  | VDict _ => "dict"
  end.

(** The value of an [and]/[or] chain that ends in [re.search]: a bool, a match
    object or [None]. *)
Inductive truth : Type :=
  | TBool (b : bool)
  | TMatch
  | TNone.

(** Python truthiness, as tested by [if healthy:]. *)
Definition truthy (t : truth) : bool :=
  match t with
  | TBool b => b
  | TMatch => true
  | TNone => false
  end.

(** ** Effects *)

Inductive level : Type := INFO | WARNING | ERROR.

(** What a run does that can be seen from outside, in the order it happens.
    [EvHealthCheck], [EvRestart] and [EvNotify] mark the entry of
    [health_check], [restart_service] and [notify_discord]; the others are
    calls into libraries.  [EvLog] keeps the format string and its arguments
    apart, as [logging] does. *)
Inductive event : Type :=
  | EvHealthCheck (server : value)
  | EvRestart (server : value)
  | EvNotify (message : string)
  | EvHttpGet (url timeout : value)
  | EvSshConnect (host port username key_filename : value)
  | EvSshOpened
  | EvSshExec (command : value)
  | EvSshClose
  | EvHttpPost (url content : string)
  | EvLog (lvl : level) (fmt : string) (args : list value)
  | EvOpen (path : string)
  | EvClose (path : string)
  | EvSetupLogging (log_file : value).

Inductive http_outcome : Type :=
  | HttpRaises (e : exn)
  | HttpResponse (status_code : Z) (text : string).

(** [exec_command] either raises, or the command runs to an exit status and
    each of [stdout.read().decode().strip()] and
    [stderr.read().decode().strip()] gives a text or raises. *)
Inductive exec_outcome : Type :=
  | ExecRaises (e : exn)
  | ExecRuns (exit_code : Z) (out err : result string).

(** The answer to [requests.post]: an exception, or a response with its
    status code and reason phrase. *)
Inductive post_outcome : Type :=
  | PostRaises (e : exn)
  | PostResponse (status_code : Z) (reason : string).

Inductive re_outcome : Type :=
  | ReMatch
  | ReNoMatch
  | ReRaises (e : exn).

(** The outside world.  Every answer may depend on the events so far (the
    first argument), so that the same request can succeed once and fail the
    next time.  [re_search] is [re.search] and [container_str] is [str()] of a
    list or dict; both are pure. *)
Record World : Type := {
  http_get : list event → value → value → http_outcome;
  ssh_connect : list event → value → value → value → value → option exn;
  ssh_exec : list event → value → exec_outcome;
  getenv : list event → string → option string;
  http_post : list event → string → string → post_outcome;
  fs_open : list event → string → option exn;
  yaml_safe_load : list event → string → result value;
  json_load : list event → string → result value;
  logging_setup : list event → value → option exn;
  re_search : value → string → re_outcome;
  container_str : value → string
}.

(** A computation: given the events so far, a result or an exception, and the
    events it adds. *)
Definition M (A : Type) : Type := list event → result A * list event.

Definition ret {A} (a : A) : M A := λ _, (Ret a, []).

Definition bind {A B} (m : M A) (f : A → M B) : M B :=
  λ h, match m h with
       | (Ret a, es) => let '(r, es') := f a (h ++ es) in (r, es ++ es')
       | (Raise e, es) => (Raise e, es)
       end.

Definition raise {A} (e : exn) : M A := λ _, (Raise e, []).

Definition lift {A} (r : result A) : M A := λ _, (r, []).

Definition emit (e : event) : M unit := λ _, (Ret tt, [e]).

(** A call into the outside world: the event is recorded and the world
    answers from the events before it. *)
Definition request {A} (e : event) (answer : list event → A) : M A :=
  λ h, (Ret (answer h), [e]).

(** Reading the world without an effect ([os.getenv]). *)
Definition observe {A} (answer : list event → A) : M A :=
  λ h, (Ret (answer h), []).

(** [try: m except Exception as e: handler e] *)
Definition try_except {A} (m : M A) (handler : exn → M A) : M A :=
  λ h, match m h with
       | (Ret a, es) => (Ret a, es)
       | (Raise e, es) => let '(r, es') := handler e (h ++ es) in (r, es ++ es')
       end.

(** [try: m finally: fin], which is what leaving a [with] block does. *)
Definition finally {A} (m : M A) (fin : M unit) : M A :=
  λ h, let '(r, es) := m h in
       match fin (h ++ es) with
       | (Ret _, es') => (r, es ++ es')
       | (Raise e, es') => (Raise e, es ++ es')
       end.

#[export] Instance M_ret : MRet M := @ret.
#[export] Instance M_bind : MBind M := λ A B f m, bind m f.

(** ** Builtins *)

Definition nl : string := String (ascii_of_nat 10) "".

(** [str(v)], as an f-string renders [v]. *)
Definition py_str (w : World) (v : value) : string :=
  match v with
  | VNone => "None"
  | VBool true => "True"
  | VBool false => "False"
  | VInt z => pretty z
  | VStr s => s
  | VList _ | VDict _ => container_str w v
  end.

(** The [TypeError] of [v[key]] for a [v] that is no dict and a string key. *)
Definition subscript_error (v : value) : exn :=
  match v with
  | VList _ => TypeError "list indices must be integers or slices, not str"
  | VStr _ => TypeError "string indices must be integers, not 'str'"
  | _ => TypeError ("'" +:+ type_name v +:+ "' object is not subscriptable")
  end.

(** [d[key]] on a dict. *)
Definition getitem (d : gmap string value) (key : string) : result value :=
  match d !! key with
  | Some v => Ret v
  | None => Raise (KeyError key)
  end.

(** [v[key]] on any value. *)
Definition subscript (v : value) (key : string) : result value :=
  match v with
  | VDict d => getitem d key
  | _ => Raise (subscript_error v)
  end.

(** [d.get(key, dflt)] on a dict; [d.get(key)] is [dict_get d key VNone]. *)
Definition dict_get (d : gmap string value) (key : string) (dflt : value) : value :=
  default dflt (d !! key).

(** [key in d] on a dict. *)
Definition has_key (d : gmap string value) (key : string) : bool :=
  bool_decide (is_Some (d !! key)).

(** [v == s] for a string literal [s]. *)
Definition eq_str (v : value) (s : string) : bool :=
  match v with
  | VStr s' => bool_decide (s' = s)
  | _ => false
  end.

(** [n == v] for an int [n]; a bool compares as 0 or 1. *)
Definition eq_int (n : Z) (v : value) : bool :=
  match v with
  | VInt z => n =? z
  | VBool b => n =? (if b then 1 else 0)
  | _ => false
  end.

(** [needle in hay] on strings: [needle] starts at some position of [hay]. *)
Fixpoint str_in (needle hay : string) : bool :=
  String.prefix needle hay ||
  match hay with
  | EmptyString => false
  | String _ rest => str_in needle rest
  end.

(** [v in text] for a string [text]: a [TypeError] unless [v] is a string. *)
Definition py_in (v : value) (text : string) : result bool :=
  match v with
  | VStr s => Ret (str_in s text)
  | _ => Raise (TypeError
           ("'in <string>' requires string as left operand, not " +:+ type_name v))
  end.

(** [for x in v]: the items a loop over [v] visits, or the [TypeError] of a
    value that cannot be iterated. *)
Definition py_iter (v : value) : result (list value) :=
  match v with
  | VList l => Ret l
  | VDict d => Ret (VStr <$> (map_to_list d).*1)
  | VStr s => Ret ((λ c, VStr (String c "")) <$> list_ascii_of_string s)
  | _ => Raise (TypeError ("'" +:+ type_name v +:+ "' object is not iterable"))
  end.

(** [v.get] on a value that is no dict. *)
Definition no_get (v : value) : exn :=
  AttributeError ("'" +:+ type_name v +:+ "' object has no attribute 'get'").

(** ** [pathlib]: the suffix of a path *)

Fixpoint split_on (sep : ascii) (s : string) : list string :=
  match s with
  | EmptyString => [""]
  | String c rest =>
      if Ascii.eqb c sep then "" :: split_on sep rest
      else match split_on sep rest with
           | x :: xs => String c x :: xs
           | [] => [String c ""]
           end
  end.

(** [Path(p).name]: the last component, empty and ["."] components dropped. *)
Definition path_name (p : string) : string :=
  List.last
    (List.filter (λ x, negb (String.eqb x "" || String.eqb x ".")) (split_on "/" p))
    "".

(** [name.rfind('.')] *)
Fixpoint rfind_dot (s : string) : option nat :=
  match s with
  | EmptyString => None
  | String c rest =>
      match rfind_dot rest with
      | Some i => Some (S i)
      | None => if Ascii.eqb c "." then Some 0%nat else None
      end
  end.

Fixpoint drop_chars (n : nat) (s : string) : string :=
  match n, s with
  | S n', String _ rest => drop_chars n' rest
  | _, _ => s
  end.

(** [Path(p).suffix]: [name[i:]] for the last dot [i] of the name when
    [0 < i < len(name) - 1], else the empty string. *)
Definition suffix (p : string) : string :=
  let name := path_name p in
  match rfind_dot name with
  | Some i =>
      if bool_decide (0 < i)%nat && bool_decide (i < String.length name - 1)%nat
      then drop_chars i name
      else ""
  | None => ""
  end.

(** ** Config loader *)

(** [load_config], lines 29-37.  [open] may raise; inside the [with] block the
    suffix picks the parser, and the file is closed however the block is
    left. *)
Definition load_config (w : World) (path : string) : M value :=
  failure ← request (EvOpen path) (λ h, fs_open w h path);
  match failure with
  | Some e => raise e
  | None =>
      finally
        (if bool_decide (suffix path ∈ [".yaml"; ".yml"]) then
           observe (λ h, yaml_safe_load w h path) ≫= lift
         else if bool_decide (suffix path = ".json") then
           observe (λ h, json_load w h path) ≫= lift
         else
           raise (ValueError "Unsupported config format. Use .yaml, .yml or .json"))
        (emit (EvClose path))
  end.

(** ** Logging setup *)

(** [setup_logging], lines 41-56: creating the directory or the log file may
    raise. *)
Definition setup_logging (w : World) (log_file : value) : M unit :=
  failure ← request (EvSetupLogging log_file) (λ h, logging_setup w h log_file);
  match failure with
  | Some e => raise e
  | None => mret tt
  end.

(** ** SSH helper *)

(** [run_ssh], lines 60-76.  [server["host"]] is the first use of [server], so
    past it [server] is a dict.  [client.close()] is the last statement before
    [return]. *)
Definition run_ssh (w : World) (server command : value) : M (Z * string * string) :=
  match server with
  | VDict sd =>
      host ← lift (getitem sd "host");
      let port := dict_get sd "port" (VInt 22) in
      let username := dict_get sd "username" VNone in
      let key_filename := dict_get sd "private_key" VNone in
      failure ← request (EvSshConnect host port username key_filename)
                  (λ h, ssh_connect w h host port username key_filename);
      match failure with
      | Some e => raise e
      | None =>
          emit EvSshOpened;;
          started ← request (EvSshExec command) (λ h, ssh_exec w h command);
          match started with
          | ExecRaises e => raise e
          | ExecRuns exit_code out err =>
              out ← lift out;
              err ← lift err;
              emit EvSshClose;;
              mret (exit_code, out, err)
          end
      end
  | _ => raise (subscript_error server)
  end.

(** ** Health checks *)

(** The [try] body of the HTTP branch, lines 87-91. *)
Definition http_check (w : World) (hc : gmap string value) : M (truth * string) :=
  url ← lift (getitem hc "url");
  let timeout := dict_get hc "timeout" (VInt 5) in
  r ← request (EvHttpGet url timeout) (λ h, http_get w h url timeout);
  match r with
  | HttpRaises e => raise e
  | HttpResponse status_code text =>
      let ok := eq_int status_code (dict_get hc "expected_status" (VInt 200)) in
      ok ← (if has_key hc "contains" then
              if ok then contains ← lift (getitem hc "contains"); lift (py_in contains text)
              else mret false
            else mret ok);
      mret (TBool ok, "HTTP " +:+ pretty status_code)
  end.

(** The remote-command branch, lines 96-100.  [ok and re.search(..)] is
    [False] when [ok] is, else what [re.search] returns. *)
Definition remote_cmd_check (w : World) (server : value) (hc : gmap string value)
    : M (truth * string) :=
  command ← lift (getitem hc "command");
  '(code, out, err) ← run_ssh w server command;
  let ok := code =? 0 in
  ok ← (if has_key hc "expect_stdout_regex" then
          if ok then
            pattern ← lift (getitem hc "expect_stdout_regex");
            match re_search w pattern out with
            | ReMatch => mret TMatch
            | ReNoMatch => mret TNone
            | ReRaises e => raise e
            end
          else mret (TBool false)
        else mret (TBool ok));
  mret (ok, "exit=" +:+ pretty code +:+ ", out=" +:+ out +:+ ", err=" +:+ err).

(** [health_check], lines 81-102.  [hc["type"]] succeeds on a dict only. *)
Definition health_check (w : World) (server : value) : M (truth * string) :=
  emit (EvHealthCheck server);;
  hc ← lift (subscript server "health_check");
  match hc with
  | VDict hc =>
      hc_type ← lift (getitem hc "type");
      if eq_str hc_type "http" then
        try_except (http_check w hc)
          (λ e, mret (TBool false, "HTTP error: " +:+ exn_str e))
      else if eq_str hc_type "remote_cmd" then
        remote_cmd_check w server hc
      else
        mret (TBool false, "Unknown health_check type")
  | _ => raise (subscript_error hc)
  end.

(** ** Service restart *)

(** The command of line 108. *)
Definition restart_cmd (w : World) (server : gmap string value) : value :=
  let service := dict_get server "service" VNone in
  dict_get server "restart_command"
    (VStr ("sudo systemctl restart " +:+ py_str w service)).

(** [restart_service], lines 106-109. *)
Definition restart_service (w : World) (server : value) : M (Z * string * string) :=
  emit (EvRestart server);;
  match server with
  | VDict sd => run_ssh w server (restart_cmd w sd)
  | _ => raise (no_get server)
  end.

(** ** Discord notification *)

(** [resp.raise_for_status()]: an [HTTPError] for a 4xx or 5xx status. *)
Definition raise_for_status (url : string) (status_code : Z) (reason : string)
    : result unit :=
  if (400 <=? status_code) && (status_code <? 500) then
    Raise (LibError (pretty status_code +:+ " Client Error: " +:+ reason
                     +:+ " for url: " +:+ url))
  else if (500 <=? status_code) && (status_code <? 600) then
    Raise (LibError (pretty status_code +:+ " Server Error: " +:+ reason
                     +:+ " for url: " +:+ url))
  else Ret tt.

(** [not webhook]: unset, or set to the empty string. *)
Definition no_webhook (webhook : option string) : bool :=
  match webhook with
  | None | Some EmptyString => true
  | Some _ => false
  end.

(** [notify_discord], lines 113-124. *)
Definition notify_discord (w : World) (message : string) : M unit :=
  emit (EvNotify message);;
  webhook ← observe (λ h, getenv w h "DISCORD_WEBHOOK");
  if no_webhook webhook then
    emit (EvLog ERROR "DISCORD_WEBHOOK not set. Skipping notification." [])
  else
    let url := default "" webhook in
    try_except
      (resp ← request (EvHttpPost url message) (λ h, http_post w h url message);
       match resp with
       | PostRaises e => raise e
       | PostResponse status_code reason =>
           lift (raise_for_status url status_code reason);;
           emit (EvLog INFO "Notification sent to Discord." [])
       end)
      (λ e, emit (EvLog ERROR ("Discord notification failed: " +:+ exn_str e) [])).

(** ** Main logic *)

Fixpoint for_each (body : value → M unit) (items : list value) : M unit :=
  match items with
  | [] => mret tt
  | x :: rest => body x;; for_each body rest
  end.

(** The body of the loop, lines 136-150.  [s["name"]] is evaluated first; it
    gives the same value each time it is read. *)
Definition process_server (w : World) (s : value) : M unit :=
  name ← lift (subscript s "name");
  emit (EvLog INFO "[%s] Checking health..." [name]);;
  '(healthy, detail) ← health_check w s;
  if truthy healthy then
    emit (EvLog INFO "[%s] Healthy: %s" [name; VStr detail])
  else
    emit (EvLog WARNING "[%s] Unhealthy: %s" [name; VStr detail]);;
    '(code, out, err) ← restart_service w s;
    let ok := code =? 0 in
    let msg := "Restart " +:+ (if ok then "OK" else "FAILED") +:+ ": exit="
               +:+ pretty code +:+ ", out=" +:+ out +:+ ", err=" +:+ err in
    emit (EvLog INFO "[%s] %s" [name; VStr msg]);;
    notify_discord w ("⚠️ " +:+ py_str w name +:+ " unhealthy" +:+ nl
                      +:+ detail +:+ nl +:+ msg).

(** The loop of lines 135-150 over the items of [servers]. *)
Definition run_pass (w : World) (servers : list value) : M unit :=
  for_each (process_server w) servers.

(** [run_orchestrator], lines 128-150. *)
Definition run_orchestrator (w : World) (config_file : string) : M unit :=
  cfg ← load_config w config_file;
  match cfg with
  | VDict cfg =>
      let log_file := dict_get cfg "log_file" (VStr "logs/orchestrator.log") in
      setup_logging w log_file;;
      let servers := dict_get cfg "servers" (VList []) in
      items ← lift (py_iter servers);
      run_pass w items
  | _ => raise (no_get cfg)
  end.

(** ** A fragment of [re.search]

    [re] is a library; the model takes it from the [World].  To say what
    [re.search] does on the patterns the examples use, this section gives its
    meaning on a small fragment: ASCII characters that stand for themselves,
    [c*], and the anchors [^] (start of the text) and [$] (end of the text, or
    just before a newline that ends it). *)
Module Regex.

Inductive atom : Type :=
  | Lit (c : ascii)
  | Star (c : ascii)
  | Bol
  | Eol.

(** Characters with a meaning of their own in a pattern, and bytes outside
    ASCII: a pattern that holds one as a literal is outside the fragment. *)
Definition special (c : ascii) : bool :=
  bool_decide (c ∈ list_ascii_of_string ".^$*+?{}[]\|()")
  || bool_decide (128 ≤ nat_of_ascii c)%nat.

Fixpoint parse (p : string) : option (list atom) :=
  match p with
  | EmptyString => Some []
  | String c rest =>
      if Ascii.eqb c "^" then cons Bol <$> parse rest
      else if Ascii.eqb c "$" then cons Eol <$> parse rest
      else if special c then None
      else match rest with
           | String "*" rest' => cons (Star c) <$> parse rest'
           | _ => cons (Lit c) <$> parse rest
           end
  end.

Definition at_end (s : string) : bool :=
  String.eqb s "" || String.eqb s nl.

(** Does the pattern match a prefix of [s]?  [start] says that [s] is the
    whole text. *)
Fixpoint match_here (re : list atom) (start : bool) (s : string) : bool :=
  match re with
  | [] => true
  | Bol :: re' => start && match_here re' start s
  | Eol :: re' => at_end s && match_here re' start s
  | Lit c :: re' =>
      match s with
      | String c' s' => Ascii.eqb c c' && match_here re' false s'
      | EmptyString => false
      end
  | Star c :: re' =>
      (fix star (start : bool) (s : string) : bool :=
         match_here re' start s ||
         match s with
         | String c' s' => Ascii.eqb c c' && star false s'
         | EmptyString => false
         end) start s
  end.

Fixpoint search_from (re : list atom) (start : bool) (s : string) : bool :=
  match_here re start s ||
  match s with
  | String _ s' => search_from re false s'
  | EmptyString => false
  end.

(** Search-anywhere: a match may start at any position of the text. *)
Definition search (re : list atom) (s : string) : bool :=
  search_from re true s.

(** A match must cover the whole text ([re.fullmatch], which the program
    does not use). *)
Definition fullmatch (re : list atom) (s : string) : bool :=
  match_here (re ++ [Eol]) true s && negb (String.eqb s nl).

End Regex.

(** The world's [re.search] is Python's on the fragment. *)
Definition re_agrees (w : World) : Prop :=
  ∀ p re s, Regex.parse p = Some re →
    re_search w (VStr p) s = if Regex.search re s then ReMatch else ReNoMatch.

(** ** Counting effects *)

Fixpoint count_if (p : event → bool) (es : list event) : nat :=
  match es with
  | [] => 0%nat
  | e :: es' => ((if p e then 1 else 0) + count_if p es')%nat
  end.

Definition is_health_check (e : event) : bool :=
  match e with EvHealthCheck _ => true | _ => false end.

Definition is_restart (e : event) : bool :=
  match e with EvRestart _ => true | _ => false end.

Definition is_notify (e : event) : bool :=
  match e with EvNotify _ => true | _ => false end.

(** Events that reach a remote machine. *)
Definition is_remote (e : event) : bool :=
  match e with
  | EvHttpGet _ _ | EvSshConnect _ _ _ _ | EvSshOpened | EvSshExec _
  | EvSshClose | EvHttpPost _ _ => true
  | _ => false
  end.

Definition health_checks : list event → nat := count_if is_health_check.
Definition restarts : list event → nat := count_if is_restart.
Definition notifications : list event → nat := count_if is_notify.
Definition remote_calls : list event → nat := count_if is_remote.

(** ** Sample worlds and servers *)

(** An [re.search] for the sample worlds: the reference matcher on the
    fragment, an error outside it. *)
Definition fragment_search (p : value) (s : string) : re_outcome :=
  match p with
  | VStr p =>
      match Regex.parse p with
      | Some re => if Regex.search re s then ReMatch else ReNoMatch
      | None => ReRaises (LibError "pattern outside the fragment")
      end
  | _ => ReRaises (TypeError "first argument must be string or compiled pattern")
  end.

(** A world in which nothing is reachable: every library call raises, the
    environment is empty. *)
Definition dead_world : World := {|
  http_get := λ _ _ _, HttpRaises (LibError "Connection refused");
  ssh_connect := λ _ _ _ _ _, Some (LibError "timed out");
  ssh_exec := λ _ _, ExecRaises (LibError "SSH session not active");
  getenv := λ _ _, None;
  http_post := λ _ _ _, PostRaises (LibError "Connection refused");
  fs_open := λ _ _, Some (LibError "No such file or directory");
  yaml_safe_load := λ _ _, Raise (LibError "bad yaml");
  json_load := λ _ _, Raise (LibError "bad json");
  logging_setup := λ _ _, None;
  re_search := fragment_search;
  container_str := λ _, "{...}"
|}.

Definition dict (l : list (string * value)) : value := VDict (list_to_map l).

Definition web_server : value :=
  dict [("name", VStr "web"); ("host", VStr "10.0.0.5");
        ("restart_command", VStr "sudo systemctl restart nginx");
        ("health_check", dict [("type", VStr "http");
                               ("url", VStr "http://10.0.0.5/health")])].

Definition db_server : value :=
  dict [("name", VStr "db"); ("host", VStr "10.0.0.7"); ("username", VStr "ops");
        ("private_key", VStr "/home/ops/.ssh/id_ed25519"); ("service", VStr "postgresql");
        ("health_check", dict [("type", VStr "remote_cmd");
                               ("command", VStr "pg_isready");
                               ("expect_stdout_regex", VStr "accepting")])].

Definition typeless_server : value :=
  dict [("name", VStr "web"); ("host", VStr "10.0.0.5");
        ("health_check", dict [("url", VStr "http://10.0.0.5/health")])].

Definition ftp_server : gmap string value :=
  list_to_map [("name", VStr "files"); ("health_check", dict [("type", VStr "ftp")])].

Definition ready_server : gmap string value :=
  list_to_map
    [("name", VStr "web"); ("host", VStr "10.0.0.5");
     ("health_check",
      dict [("type", VStr "http"); ("url", VStr "http://10.0.0.5/health");
            ("contains", VStr "ready")])].

Definition ready_check : gmap string value :=
  list_to_map [("type", VStr "http"); ("url", VStr "http://10.0.0.5/health");
               ("contains", VStr "ready")].

Definition bare_server : gmap string value :=
  list_to_map [("name", VStr "cache"); ("host", VStr "10.0.0.9");
               ("health_check", dict [("type", VStr "http");
                                      ("url", VStr "http://10.0.0.9/")])].

Definition ok_server : gmap string value :=
  list_to_map
    [("name", VStr "worker"); ("host", VStr "10.0.0.8");
     ("health_check",
      dict [("type", VStr "remote_cmd"); ("command", VStr "/usr/local/bin/selftest");
            ("expect_stdout_regex", VStr "^OK$")])].

Definition ok_check : gmap string value :=
  list_to_map [("type", VStr "remote_cmd"); ("command", VStr "/usr/local/bin/selftest");
               ("expect_stdout_regex", VStr "^OK$")].

Definition sample_config : value :=
  dict [("log_file", VStr "/var/log/orchestrator.log");
        ("servers", VList [web_server; db_server])].

(** A world in which the config loads, the web server answers 200, the
    database does not accept connections until it is restarted, and the
    webhook answers 204. *)
Definition sample_world : World := {|
  http_get := λ _ _ _, HttpResponse 200 "ok";
  ssh_connect := λ _ _ _ _ _, None;
  ssh_exec := λ _ command,
    if eq_str command "pg_isready" then ExecRuns 2 (Ret "no response") (Ret "")
    else ExecRuns 0 (Ret "") (Ret "");
  getenv := λ _ _, Some "https://discord.com/api/webhooks/1/token";
  http_post := λ _ _ _, PostResponse 204 "No Content";
  fs_open := λ _ _, None;
  yaml_safe_load := λ _ _, Ret sample_config;
  json_load := λ _ _, Ret sample_config;
  logging_setup := λ _ _, None;
  re_search := re_search dead_world;
  container_str := container_str dead_world
|}.

(** A world whose web server answers 200 with the body "not ready yet". *)
Definition not_ready_world : World := {|
  http_get := λ _ _ _, HttpResponse 200 "not ready yet";
  ssh_connect := ssh_connect dead_world;
  ssh_exec := ssh_exec dead_world;
  getenv := getenv dead_world;
  http_post := http_post dead_world;
  fs_open := fs_open dead_world;
  yaml_safe_load := yaml_safe_load dead_world;
  json_load := json_load dead_world;
  logging_setup := logging_setup dead_world;
  re_search := re_search dead_world;
  container_str := container_str dead_world
|}.

(** A world whose SSH server accepts the connection and then lets the command
    time out. *)
Definition hung_world : World := {|
  http_get := http_get dead_world;
  ssh_connect := λ _ _ _ _ _, None;
  ssh_exec := λ _ _, ExecRaises (LibError "timed out");
  getenv := getenv dead_world;
  http_post := http_post dead_world;
  fs_open := fs_open dead_world;
  yaml_safe_load := yaml_safe_load dead_world;
  json_load := json_load dead_world;
  logging_setup := logging_setup dead_world;
  re_search := re_search dead_world;
  container_str := container_str dead_world
|}.

(** A world whose self-test exits 0 and prints "FAIL". *)
Definition fail_world : World := {|
  http_get := http_get dead_world;
  ssh_connect := λ _ _ _ _ _, None;
  ssh_exec := λ _ _, ExecRuns 0 (Ret "FAIL") (Ret "");
  getenv := getenv dead_world;
  http_post := http_post dead_world;
  fs_open := fs_open dead_world;
  yaml_safe_load := yaml_safe_load dead_world;
  json_load := json_load dead_world;
  logging_setup := logging_setup dead_world;
  re_search := re_search dead_world;
  container_str := container_str dead_world
|}.

(** ** Notions used in the statements *)

(** The verdict of the HTTP branch on a response, read off lines 88-93. *)
Definition http_verdict (hc : gmap string value) (status_code : Z) (text : string)
    : truth * string :=
  if eq_int status_code (dict_get hc "expected_status" (VInt 200)) then
    match hc !! "contains" with
    | None => (TBool true, "HTTP " +:+ pretty status_code)
    | Some c =>
        match py_in c text with
        | Ret b => (TBool b, "HTTP " +:+ pretty status_code)
        | Raise e => (TBool false, "HTTP error: " +:+ exn_str e)
        end
    end
  else (TBool false, "HTTP " +:+ pretty status_code).

(** What the remote-command branch makes of a finished command, read off
    lines 97-100. *)
Definition remote_verdict (w : World) (hc : gmap string value) (code : Z)
    (out err : string) : result (truth * string) :=
  let detail := "exit=" +:+ pretty code +:+ ", out=" +:+ out +:+ ", err=" +:+ err in
  if code =? 0 then
    match hc !! "expect_stdout_regex" with
    | None => Ret (TBool true, detail)
    | Some p =>
        match re_search w p out with
        | ReMatch => Ret (TMatch, detail)
        | ReNoMatch => Ret (TNone, detail)
        | ReRaises e => Raise e
        end
    end
  else Ret (TBool false, detail).

(** The verdict a caller sees: healthy only if [health_check] returned a truthy
    first component. *)
Definition healthy (r : result (truth * string)) : bool :=
  match r with
  | Ret (ok, _) => truthy ok
  | Raise _ => false
  end.

(** No entry of [health_check], [restart_service] or [notify_discord]. *)
Definition quiet (es : list event) : Prop :=
  health_checks es = 0%nat ∧ restarts es = 0%nat ∧ notifications es = 0%nat.

(** A computation that enters none of the three functions, whatever the
    history. *)
Definition emits_quiet {A} (m : M A) : Prop := ∀ h, quiet (m h).2.

Definition plain (e : event) : bool :=
  negb (is_health_check e || is_restart e || is_notify e).

(** [seg] is what processing server [s] adds to history [h]: the health check
    returns a verdict, is entered once, and is followed by no restart and no
    notification when the verdict is truthy, by one of each otherwise. *)
Definition handled (w : World) (s : value) (h seg : list event) : Prop :=
  ∃ name ok detail es rest,
    subscript s "name" = Ret name
    ∧ health_check w s (h ++ [EvLog INFO "[%s] Checking health..." [name]])
        = (Ret (ok, detail), es)
    ∧ seg = EvLog INFO "[%s] Checking health..." [name] :: es ++ rest
    ∧ health_checks seg = 1%nat
    ∧ if truthy ok then restarts seg = 0%nat ∧ notifications seg = 0%nat
      else restarts seg = 1%nat ∧ notifications seg = 1%nat.

(** The events of a pass, cut into one segment per server, each segment
    starting from the history the servers before it left. *)
Inductive pass_split (w : World) : list event → list value → list (list event) → Prop :=
  | pass_split_nil h : pass_split w h [] []
  | pass_split_cons h s seg servers segs :
      handled w s h seg →
      pass_split w (h ++ seg) servers segs →
      pass_split w h (s :: servers) (seg :: segs).

(** ** Notions used in the further properties *)

Definition is_opened (e : event) : bool :=
  match e with EvSshOpened => true | _ => false end.

Definition is_closed (e : event) : bool :=
  match e with EvSshClose => true | _ => false end.

Definition is_post (e : event) : bool :=
  match e with EvHttpPost _ _ => true | _ => false end.

(** Sessions established and sessions closed. *)
Definition opened : list event → nat := count_if is_opened.
Definition closed : list event → nat := count_if is_closed.
Definition posts : list event → nat := count_if is_post.

(** The servers whose health was evaluated, in the order of evaluation. *)
Fixpoint checked (es : list event) : list value :=
  match es with
  | [] => []
  | EvHealthCheck s :: es' => s :: checked es'
  | _ :: es' => checked es'
  end.

(** A world whose SSH side never raises: every connection is accepted, every
    command runs to an exit status and both streams can be read. *)
Definition ssh_reliable (w : World) : Prop :=
  (∀ h host port username key, ssh_connect w h host port username key = None)
  ∧ ∀ h command, ∃ code out err, ssh_exec w h command = ExecRuns code (Ret out) (Ret err).

(** A server entry with the keys the program reads with a subscript, and an
    HTTP check. *)
Definition http_server (s : value) : Prop :=
  ∃ (sd hc : gmap string value),
    s = VDict sd ∧ is_Some (sd !! "name") ∧ is_Some (sd !! "host")
    ∧ sd !! "health_check" = Some (VDict hc) ∧ hc !! "type" = Some (VStr "http").

(** A remote-command check whose pattern is not a valid regex. *)
Definition bad_pattern_check : gmap string value :=
  list_to_map [("type", VStr "remote_cmd"); ("command", VStr "uptime");
               ("expect_stdout_regex", VStr "(")].

Definition bad_pattern_server : gmap string value :=
  list_to_map [("name", VStr "worker"); ("host", VStr "10.0.0.8");
               ("health_check", VDict bad_pattern_check)].

(** An HTTP check with no ["url"]. *)
Definition urlless_server : gmap string value :=
  list_to_map [("name", VStr "web");
               ("health_check", dict [("type", VStr "http")])].

(** An HTTP check whose [contains] is a number. *)
Definition numeric_contains_check : gmap string value :=
  list_to_map [("type", VStr "http"); ("url", VStr "http://10.0.0.5/health");
               ("contains", VInt 1)].

Definition numeric_contains_server : gmap string value :=
  list_to_map [("name", VStr "web");
               ("health_check", VDict numeric_contains_check)].

(** A remote-command check with no ["command"]. *)
Definition commandless_server : gmap string value :=
  list_to_map [("name", VStr "db"); ("host", VStr "10.0.0.7");
               ("health_check", dict [("type", VStr "remote_cmd")])].

(** A world whose YAML config only names the log file and whose JSON config
    is the document [null]. *)
Definition bare_config_world : World := {|
  http_get := http_get sample_world;
  ssh_connect := ssh_connect sample_world;
  ssh_exec := ssh_exec sample_world;
  getenv := getenv sample_world;
  http_post := http_post sample_world;
  fs_open := fs_open sample_world;
  yaml_safe_load := λ _ _, Ret (dict [("log_file", VStr "/tmp/orchestrator.log")]);
  json_load := λ _ _, Ret VNone;
  logging_setup := logging_setup sample_world;
  re_search := re_search sample_world;
  container_str := container_str sample_world
|}.

Definition bare_config : gmap string value :=
  list_to_map [("log_file", VStr "/tmp/orchestrator.log")].

(** A world in which the log directory cannot be created. *)
Definition readonly_world : World := {|
  http_get := http_get sample_world;
  ssh_connect := ssh_connect sample_world;
  ssh_exec := ssh_exec sample_world;
  getenv := getenv sample_world;
  http_post := http_post sample_world;
  fs_open := fs_open sample_world;
  yaml_safe_load := λ _ _, Ret (VDict bare_config);
  json_load := json_load sample_world;
  logging_setup := λ _ _, Some (LibError "Permission denied");
  re_search := re_search sample_world;
  container_str := container_str sample_world
|}.

Definition null_servers_config : gmap string value :=
  list_to_map [("servers", VNone)].

(** A world whose config says [servers: null]. *)
Definition null_servers_world : World := {|
  http_get := http_get sample_world;
  ssh_connect := ssh_connect sample_world;
  ssh_exec := ssh_exec sample_world;
  getenv := getenv sample_world;
  http_post := http_post sample_world;
  fs_open := fs_open sample_world;
  yaml_safe_load := λ _ _, Ret (VDict null_servers_config);
  json_load := json_load sample_world;
  logging_setup := logging_setup sample_world;
  re_search := re_search sample_world;
  container_str := container_str sample_world
|}.

(** A server whose check type is misspelt. *)
Definition misspelt_check : gmap string value :=
  list_to_map [("type", VStr "htpp"); ("url", VStr "http://10.0.0.6/health")].

Definition misspelt_server : gmap string value :=
  list_to_map [("name", VStr "api"); ("host", VStr "10.0.0.6");
               ("restart_command", VStr "sudo systemctl restart api");
               ("health_check", VDict misspelt_check)].

(** The mapping that [sample_config] wraps. *)
Definition sample_config_dict : gmap string value :=
  list_to_map [("log_file", VStr "/var/log/orchestrator.log");
               ("servers", VList [web_server; db_server])].

(** The functions of the program are unfolded by name in the proofs. *)
Arguments run_ssh : simpl never.
Arguments health_check : simpl never.
Arguments restart_service : simpl never.
Arguments notify_discord : simpl never.
Arguments process_server : simpl never.

(** * Properties *)

(** ** Helper lemmas *)

Lemma count_if_app p es1 es2 :
  count_if p (es1 ++ es2) = (count_if p es1 + count_if p es2)%nat.
Proof. induction es1 as [|e es1 IH]; simpl; [done | rewrite IH; lia]. Qed.

Lemma eq_str_true v s : eq_str v s = true ↔ v = VStr s.
Proof.
  destruct v; simpl; try (split; [done | discriminate]).
  rewrite bool_decide_eq_true. split; [by intros -> | by intros [= ->]].
Qed.

Lemma eq_str_false v s : v ≠ VStr s → eq_str v s = false.
Proof.
  intros Hne. destruct (eq_str v s) eqn:E; [|done].
  by apply eq_str_true in E.
Qed.

Lemma eq_int_int n z : eq_int n (VInt z) = true ↔ n = z.
Proof. simpl. apply Z.eqb_eq. Qed.

Lemma has_key_true (d : gmap string value) k v : d !! k = Some v → has_key d k = true.
Proof. intros H. unfold has_key. apply bool_decide_eq_true. by exists v. Qed.

Lemma has_key_false (d : gmap string value) k : d !! k = None → has_key d k = false.
Proof.
  intros H. unfold has_key. apply bool_decide_eq_false. rewrite H.
  by intros [? ?].
Qed.

Lemma append_cons c s t : String c s +:+ t = String c (s +:+ t).
Proof. reflexivity. Qed.

Lemma append_nil t : "" +:+ t = t.
Proof. reflexivity. Qed.



(** Unfolding the monad, with the histories kept in the form [h ++ es]. *)
Ltac run :=
  repeat (progress (unfold mbind, mret, M_bind, M_ret, bind, ret, raise, lift,
                      emit, request, observe, try_except, finally; simpl;
                    rewrite ?app_nil_r, <- ?app_assoc; simpl)).

(** ** Unknown and missing check types (C8) *)

(** C8, as stated, fails when the check type is missing: [hc["type"]] raises
    [KeyError] before any comparison, so no verdict is returned. *)
Lemma health_check_missing_type_raises :
  health_check dead_world typeless_server [] =
    (Raise (KeyError "type"), [EvHealthCheck typeless_server]).
Proof. reflexivity. Qed.

(** C8 (amended): a check type that is present but is neither ["http"] nor
    ["remote_cmd"] gives the verdict healthy=false with detail
    ["Unknown health_check type"] and touches nothing outside; a missing
    ["type"] key raises [KeyError('type')]. *)
Theorem health_check_unknown_type w (sd hc : gmap string value) h :
  sd !! "health_check" = Some (VDict hc) →
  (∀ t, hc !! "type" = Some t → t ≠ VStr "http" → t ≠ VStr "remote_cmd" →
     health_check w (VDict sd) h =
       (Ret (TBool false, "Unknown health_check type"), [EvHealthCheck (VDict sd)]))
  ∧ (hc !! "type" = None →
     health_check w (VDict sd) h =
       (Raise (KeyError "type"), [EvHealthCheck (VDict sd)])).
Proof.
  intros Hhc. split.
  - intros t Ht Hhttp Hcmd. unfold health_check, subscript, getitem. run.
    rewrite Hhc. run. rewrite Ht. run.
    rewrite (eq_str_false _ _ Hhttp), (eq_str_false _ _ Hcmd). done.
  - intros Ht. unfold health_check, subscript, getitem. run.
    rewrite Hhc. run. rewrite Ht. done.
Qed.

(** An "ftp" check in the dead world. *)
Lemma health_check_unknown_type_witness :
  health_check dead_world (VDict ftp_server) [] =
    (Ret (TBool false, "Unknown health_check type"), [EvHealthCheck (VDict ftp_server)]).
Proof.
  apply (proj1 (health_check_unknown_type dead_world ftp_server
                  (list_to_map [("type", VStr "ftp")]) [] eq_refl) (VStr "ftp"));
    [reflexivity | discriminate | discriminate].
Defined.

(** ** HTTP checks (C2, C6) *)

Lemma health_check_http w (sd hc : gmap string value) url h :
  sd !! "health_check" = Some (VDict hc) →
  hc !! "type" = Some (VStr "http") →
  hc !! "url" = Some url →
  health_check w (VDict sd) h =
    (Ret match http_get w (h ++ [EvHealthCheck (VDict sd)]) url
                 (dict_get hc "timeout" (VInt 5)) with
         | HttpResponse status_code text => http_verdict hc status_code text
         | HttpRaises e => (TBool false, "HTTP error: " +:+ exn_str e)
         end,
     [EvHealthCheck (VDict sd); EvHttpGet url (dict_get hc "timeout" (VInt 5))]).
Proof.
  intros Hhc Ht Hurl. unfold health_check, subscript, getitem. run.
  rewrite Hhc. run. rewrite Ht. run.
  unfold http_check, getitem. run. rewrite Hurl. run.
  destruct (http_get _ _ _ _) as [e|status_code text]; [done|].
  unfold http_verdict.
  destruct (hc !! "contains") as [c|] eqn:Hc.
  - rewrite (has_key_true _ _ _ Hc).
    destruct (eq_int status_code _); run; [|done].
    by destruct (py_in c text).
  - rewrite (has_key_false _ _ Hc). by destruct (eq_int status_code _).
Qed.


(** C2, as stated, fails: with [contains: "ready"], status 200 (the expected
    one) and body "not ready yet", the verdict is healthy=true, because
    "ready" occurs in "not ready yet". *)
Lemma http_not_ready_yet_is_healthy :
  health_check not_ready_world (VDict ready_server) [] =
    (Ret (TBool true, "HTTP 200"),
     [EvHealthCheck (VDict ready_server);
      EvHttpGet (VStr "http://10.0.0.5/health") (VInt 5)]).
Proof. reflexivity. Qed.

(** C2 (amended): for an HTTP check with [contains: "ready"], a response with
    the expected status and the body "not ready yet" gives the verdict
    healthy=true (detail "HTTP <status>"): the body holds "ready" as a
    literal substring. *)
Theorem http_contains_ready w (sd hc : gmap string value) url h status_code :
  sd !! "health_check" = Some (VDict hc) →
  hc !! "type" = Some (VStr "http") →
  hc !! "url" = Some url →
  hc !! "contains" = Some (VStr "ready") →
  http_get w (h ++ [EvHealthCheck (VDict sd)]) url (dict_get hc "timeout" (VInt 5))
    = HttpResponse status_code "not ready yet" →
  eq_int status_code (dict_get hc "expected_status" (VInt 200)) = true →
  health_check w (VDict sd) h =
    (Ret (TBool true, "HTTP " +:+ pretty status_code),
     [EvHealthCheck (VDict sd); EvHttpGet url (dict_get hc "timeout" (VInt 5))]).
Proof.
  intros Hhc Ht Hurl Hc Hget Hstatus.
  rewrite (health_check_http _ _ _ _ _ Hhc Ht Hurl), Hget.
  unfold http_verdict. by rewrite Hstatus, Hc.
Qed.

(** The server of the counterexample, through the theorem. *)
Lemma http_contains_ready_witness :
  health_check not_ready_world (VDict ready_server) [] =
    (Ret (TBool true, "HTTP " +:+ pretty 200),
     [EvHealthCheck (VDict ready_server);
      EvHttpGet (VStr "http://10.0.0.5/health")
        (dict_get ready_check "timeout" (VInt 5))]).
Proof.
  apply (http_contains_ready not_ready_world ready_server ready_check
           (VStr "http://10.0.0.5/health") [] 200); reflexivity.
Defined.




(** ** The SSH helper (C4) *)

(** Case analysis on everything [run_ssh] asks of the server dict and of the
    world. *)
Ltac run_ssh_cases :=
  unfold run_ssh, getitem; run;
  repeat match goal with
         | |- context [match ?d !! "host" with _ => _ end] => destruct (d !! "host"); run
         | |- context [ssh_connect ?w ?h ?a ?b ?c ?d] =>
             destruct (ssh_connect w h a b c d); run
         | |- context [ssh_exec ?w ?h ?c] =>
             let out := fresh "out" in
             let err := fresh "err" in
             destruct (ssh_exec w h c) as [?|? out err]; run;
             [|destruct out; run; [destruct err; run|]]
         end.

(** [run_ssh] closes the session exactly when it returns: no path that raises
    reaches [client.close()]. *)
Lemma run_ssh_closes_iff_returns w server command h :
  EvSshClose ∈ (run_ssh w server command h).2 ↔
  is_ret (run_ssh w server command h).1 = true.
Proof.
  destruct server; try (simpl; split; [by intros ?%elem_of_nil | done]).
  run_ssh_cases; rewrite ?elem_of_cons, ?elem_of_nil;
    intuition (discriminate || auto 10).
Qed.

(** Every command that [run_ssh] sends is the one it was given. *)
Lemma run_ssh_exec_events w server command h c :
  EvSshExec c ∈ (run_ssh w server command h).2 → c = command.
Proof.
  destruct server; try (simpl; by intros ?%elem_of_nil).
  run_ssh_cases; rewrite ?elem_of_cons, ?elem_of_nil; intuition congruence.
Qed.

Lemma restart_service_run_ssh w (sd : gmap string value) h :
  restart_service w (VDict sd) h =
    let '(r, es) := run_ssh w (VDict sd) (restart_cmd w sd) (h ++ [EvRestart (VDict sd)])
    in (r, EvRestart (VDict sd) :: es).
Proof. reflexivity. Qed.

(** C4 fails on the code: when [exec_command] times out on an open session,
    [run_ssh] raises and the session is never closed. *)
Lemma run_ssh_leaves_session_open :
  run_ssh hung_world db_server (VStr "pg_isready") [] =
    (Raise (LibError "timed out"),
     [EvSshConnect (VStr "10.0.0.7") (VInt 22) (VStr "ops")
        (VStr "/home/ops/.ssh/id_ed25519");
      EvSshOpened;
      EvSshExec (VStr "pg_isready")]).
Proof. reflexivity. Qed.

(** ** Health evaluation raises (C1) *)

(** C1 fails on the code: a remote-command check whose SSH connection fails
    raises out of [health_check]; no verdict is returned. *)
Lemma health_check_raises_on_ssh_failure :
  health_check dead_world db_server [] =
    (Raise (LibError "timed out"),
     [EvHealthCheck db_server;
      EvSshConnect (VStr "10.0.0.7") (VInt 22) (VStr "ops")
        (VStr "/home/ops/.ssh/id_ed25519")]).
Proof. reflexivity. Qed.

(** The HTTP branch, by contrast, never raises: its [try] turns every
    exception, a missing ["url"] included, into a verdict. *)
Lemma health_check_http_returns w (sd hc : gmap string value) h :
  sd !! "health_check" = Some (VDict hc) →
  hc !! "type" = Some (VStr "http") →
  is_ret (health_check w (VDict sd) h).1 = true.
Proof.
  intros Hhc Ht. destruct (hc !! "url") as [url|] eqn:Hurl.
  - by rewrite (health_check_http _ _ _ _ _ Hhc Ht Hurl).
  - unfold health_check, subscript, getitem. run. rewrite Hhc. run.
    rewrite Ht. run. unfold http_check, getitem. run. by rewrite Hurl.
Qed.

(** ** Restart command (C5) *)

(** C5, as stated, fails in its last part: with neither [restart_command] nor
    [service], the command names the service "None"; the service name is not
    empty. *)
Lemma restart_cmd_without_service_names_None :
  restart_cmd dead_world bare_server = VStr "sudo systemctl restart None"
  ∧ restart_cmd dead_world bare_server ≠ VStr ("sudo systemctl restart " +:+ "").
Proof. split; [reflexivity | discriminate]. Qed.

(** C5 (amended): the command is [restart_command] verbatim when that key is
    present; otherwise it is "sudo systemctl restart <service>" for a string
    [service]; with neither key it is "sudo systemctl restart None".  It is the
    only command [restart_service] sends. *)
Theorem restart_cmd_resolution w (sd : gmap string value) :
  (∀ c, sd !! "restart_command" = Some c → restart_cmd w sd = c)
  ∧ (∀ s, sd !! "restart_command" = None → sd !! "service" = Some (VStr s) →
       restart_cmd w sd = VStr ("sudo systemctl restart " +:+ s))
  ∧ (sd !! "restart_command" = None → sd !! "service" = None →
       restart_cmd w sd = VStr "sudo systemctl restart None")
  ∧ (∀ h c, EvSshExec c ∈ (restart_service w (VDict sd) h).2 → c = restart_cmd w sd).
Proof.
  repeat split.
  - unfold restart_cmd, dict_get. by intros c ->.
  - unfold restart_cmd, dict_get. by intros s -> ->.
  - unfold restart_cmd, dict_get. by intros -> ->.
  - intros h c. rewrite restart_service_run_ssh.
    pose proof (run_ssh_exec_events w (VDict sd) (restart_cmd w sd)
                  (h ++ [EvRestart (VDict sd)]) c) as Hexec.
    destruct (run_ssh _ _ _ _) as [r es]. simpl in *.
    intros [?|?]%elem_of_cons; [done | by apply Hexec].
Qed.

(** A server with neither key. *)
Lemma restart_cmd_resolution_witness :
  restart_cmd dead_world bare_server = VStr "sudo systemctl restart None".
Proof.
  apply (proj1 (proj2 (proj2 (restart_cmd_resolution dead_world bare_server))));
    reflexivity.
Defined.

(** ** The notifier (C9) *)

(** C9: [notify_discord] returns normally for every message, in every world:
    whatever [requests.post] raises and whatever status it answers is caught.
    When the webhook variable is unset (or empty) nothing is sent: the only
    effects are the call itself and one log line. *)
Theorem notify_discord_never_fails w message h :
  ∃ es, notify_discord w message h = (Ret tt, es)
    ∧ (no_webhook (getenv w (h ++ [EvNotify message]) "DISCORD_WEBHOOK") = true →
       remote_calls es = 0%nat
       ∧ es = [EvNotify message;
               EvLog ERROR "DISCORD_WEBHOOK not set. Skipping notification." []]).
Proof.
  unfold notify_discord. run.
  destruct (no_webhook _) eqn:Hweb; run; [by eexists|].
  destruct (http_post _ _ _ _) as [e|status_code reason]; run.
  { eexists. split; [done | intros [=]]. }
  unfold raise_for_status.
  destruct (_ && _); run; [eexists; split; [done | intros [=]]|].
  destruct (_ && _); run; eexists; (split; [done | intros [=]]).
Qed.

(** No webhook in the dead world: nothing is sent. *)
Lemma notify_discord_never_fails_witness :
  ∃ es, notify_discord dead_world "web unhealthy" [] = (Ret tt, es)
    ∧ remote_calls es = 0%nat.
Proof.
  destruct (notify_discord_never_fails dead_world "web unhealthy" [])
    as (es & Hrun & Hquiet).
  exists es. split; [exact Hrun | apply (Hquiet eq_refl)].
Defined.

(** ** Unsupported config files (C10) *)

(** C10: for a config path whose suffix is none of [.yaml], [.yml], [.json],
    [run_orchestrator] raises before the first server: it opens the file (and
    closes it again) and nothing else, so there is no health evaluation, no
    remediation, no notification and no remote call.  The exception is the
    [ValueError] of [load_config] unless [open] itself fails. *)
Theorem unsupported_config_fails_fast w path h :
  suffix path ∉ [".yaml"; ".yml"; ".json"] →
  ∃ e es, run_orchestrator w path h = (Raise e, es)
    ∧ health_checks es = 0%nat ∧ restarts es = 0%nat
    ∧ notifications es = 0%nat ∧ remote_calls es = 0%nat
    ∧ (fs_open w h path = None →
       e = ValueError "Unsupported config format. Use .yaml, .yml or .json"
       ∧ es = [EvOpen path; EvClose path]).
Proof.
  intros Hsuffix. unfold run_orchestrator, load_config. run.
  destruct (fs_open w h path) as [e|]; run.
  { exists e. eexists. by repeat split. }
  apply not_elem_of_cons in Hsuffix as [Hyaml Hsuffix].
  apply not_elem_of_cons in Hsuffix as [Hyml Hsuffix].
  apply not_elem_of_cons in Hsuffix as [Hjson _].
  rewrite bool_decide_eq_false_2
    by (rewrite !not_elem_of_cons; repeat split; [done | done | apply not_elem_of_nil]).
  rewrite (bool_decide_eq_false_2 _ Hjson).
  run. eexists _, _. by repeat split.
Qed.

(** A [.toml] config, in a world where every file opens. *)
Lemma unsupported_config_fails_fast_witness :
  ∃ e es, run_orchestrator sample_world "servers.toml" [] = (Raise e, es)
    ∧ health_checks es = 0%nat ∧ restarts es = 0%nat
    ∧ notifications es = 0%nat ∧ remote_calls es = 0%nat.
Proof.
  destruct (unsupported_config_fails_fast sample_world "servers.toml" [])
    as (e & es & Hrun & Hh & Hr & Hn & Hc & _).
  - vm_compute. intros Hin. repeat (apply elem_of_cons in Hin as [Hin|Hin]; [discriminate|]).
    by apply elem_of_nil in Hin.
  - exists e, es. by repeat split.
Defined.

(** ** Remote-command checks (C7) *)

Lemma health_check_remote_cmd w (sd hc : gmap string value) command h code out err es :
  sd !! "health_check" = Some (VDict hc) →
  hc !! "type" = Some (VStr "remote_cmd") →
  hc !! "command" = Some command →
  run_ssh w (VDict sd) command (h ++ [EvHealthCheck (VDict sd)])
    = (Ret (code, out, err), es) →
  health_check w (VDict sd) h =
    (remote_verdict w hc code out err, EvHealthCheck (VDict sd) :: es).
Proof.
  intros Hhc Ht Hcmd Hssh. unfold health_check, subscript, getitem. run.
  rewrite Hhc. run. rewrite Ht. run.
  unfold remote_cmd_check, getitem. run. rewrite Hcmd. run. rewrite Hssh. run.
  unfold remote_verdict.
  destruct (hc !! "expect_stdout_regex") as [p|] eqn:Hp.
  - rewrite (has_key_true _ _ _ Hp). destruct (code =? 0); run; [|done].
    destruct (re_search w p out); by run.
  - rewrite (has_key_false _ _ Hp). destruct (code =? 0); by run.
Qed.

Lemma remote_verdict_healthy w hc code out err :
  healthy (remote_verdict w hc code out err) = true ↔
    code = 0 ∧ ∀ p, hc !! "expect_stdout_regex" = Some p → re_search w p out = ReMatch.
Proof.
  unfold remote_verdict. destruct (Z.eqb_spec code 0) as [->|Hne].
  - destruct (hc !! "expect_stdout_regex") as [p|].
    + destruct (re_search w p out) eqn:Hre; simpl.
      * split; [|done]. intros _. split; [done|]. by intros ? [= <-].
      * split; [done|]. intros [_ H]. specialize (H _ eq_refl). congruence.
      * split; [done|]. intros [_ H]. specialize (H _ eq_refl). congruence.
    + simpl. split; [|done]. intros _. by split.
  - simpl. split; [done | by intros [? _]].
Qed.

(** Search-anywhere: [search] succeeds exactly when the pattern matches at the
    start of some tail of the text ([^] only when that tail is the text). *)
Lemma search_from_spec re start s :
  Regex.search_from re start s = true ↔
    ∃ pre post, s = pre +:+ post
      ∧ Regex.match_here re (start && bool_decide (pre = "")) post = true.
Proof.
  revert start. induction s as [|c s IH]; intros start; cbn [Regex.search_from].
  - rewrite orb_false_r. split.
    + intros Hm. exists "", "". by rewrite andb_true_r.
    + intros (pre & post & Hs & Hm). destruct pre; [|done].
      rewrite append_nil in Hs. subst post. by rewrite andb_true_r in Hm.
  - rewrite orb_true_iff, IH. split.
    + intros [Hm | (pre & post & -> & Hm)].
      * exists "", (String c s). by rewrite andb_true_r.
      * exists (String c pre), post. split; [done|]. by rewrite andb_false_r.
    + intros (pre & post & Hs & Hm). destruct pre as [|c' pre].
      * left. rewrite append_nil in Hs. subst post. by rewrite andb_true_r in Hm.
      * right. rewrite append_cons in Hs. injection Hs as -> ->.
        rewrite andb_false_r in Hm. by exists pre, post.
Qed.

Lemma fragment_search_agrees w : re_search w = fragment_search → re_agrees w.
Proof. intros Hw p re s Hp. rewrite Hw. simpl. by rewrite Hp. Qed.

(** C7: for a remote-command check whose command runs to [(exit_code, stdout,
    stderr)], the caller sees healthy=true exactly when the exit code is 0
    and, when [expect_stdout_regex] is set, [re.search] finds the pattern in
    stdout; [health_check] returns a verdict unless [re.search] itself raises;
    on the pattern fragment the match may start anywhere in stdout; and exit
    code 0 with stdout "FAIL" and pattern "^OK$" is unhealthy. *)
Theorem remote_cmd_verdict w (sd hc : gmap string value) command h code out err es :
  sd !! "health_check" = Some (VDict hc) →
  hc !! "type" = Some (VStr "remote_cmd") →
  hc !! "command" = Some command →
  run_ssh w (VDict sd) command (h ++ [EvHealthCheck (VDict sd)])
    = (Ret (code, out, err), es) →
  let r := (health_check w (VDict sd) h).1 in
  (healthy r = true ↔
     code = 0 ∧ ∀ p, hc !! "expect_stdout_regex" = Some p → re_search w p out = ReMatch)
  ∧ ((code = 0 → ∀ p e, hc !! "expect_stdout_regex" = Some p →
                   re_search w p out ≠ ReRaises e) →
     ∃ ok, health_check w (VDict sd) h =
             (Ret (ok, "exit=" +:+ pretty code +:+ ", out=" +:+ out +:+ ", err=" +:+ err),
              EvHealthCheck (VDict sd) :: es))
  ∧ (re_agrees w → ∀ p re,
       hc !! "expect_stdout_regex" = Some (VStr p) → Regex.parse p = Some re →
       (healthy r = true ↔
          code = 0 ∧ ∃ pre post, out = pre +:+ post
            ∧ Regex.match_here re (bool_decide (pre = "")) post = true))
  ∧ (re_agrees w → code = 0 → out = "FAIL" →
     hc !! "expect_stdout_regex" = Some (VStr "^OK$") → healthy r = false).
Proof.
  intros Hhc Ht Hcmd Hssh r. subst r.
  rewrite (health_check_remote_cmd _ _ _ _ _ _ _ _ _ Hhc Ht Hcmd Hssh). simpl.
  split; [apply remote_verdict_healthy|]. split; [|split].
  - intros Hre. unfold remote_verdict. destruct (Z.eqb_spec code 0) as [Hz|Hne].
    + destruct (hc !! "expect_stdout_regex") as [p|]; [|by eexists].
      destruct (re_search w p out) eqn:E; [by eexists | by eexists |].
      by destruct (Hre Hz p e eq_refl).
    + by eexists.
  - intros Hag p re Hp Hparse. rewrite remote_verdict_healthy.
    split; intros [Hz H]; (split; [done|]).
    + specialize (H _ Hp). rewrite (Hag _ _ _ Hparse) in H.
      destruct (Regex.search re out) eqn:Hs; [|done].
      apply search_from_spec in Hs as (pre & post & ? & Hm). by exists pre, post.
    + intros p' Hp'. rewrite Hp in Hp'. injection Hp' as <-.
      rewrite (Hag _ _ _ Hparse).
      destruct H as (pre & post & ? & Hm).
      assert (Regex.search re out = true) as ->; [|done].
      apply search_from_spec. by exists pre, post.
  - intros Hag -> -> Hp. unfold remote_verdict. simpl. rewrite Hp.
    by rewrite (Hag "^OK$" [Regex.Bol; Regex.Lit "O"; Regex.Lit "K"; Regex.Eol] "FAIL").
Qed.

(** Exit code 0, stdout "FAIL", pattern "^OK$": unhealthy. *)
Lemma remote_cmd_verdict_witness :
  healthy (health_check fail_world (VDict ok_server) []).1 = false.
Proof.
  apply (remote_cmd_verdict fail_world ok_server ok_check
           (VStr "/usr/local/bin/selftest") [] 0 "FAIL" ""
           [EvSshConnect (VStr "10.0.0.8") (VInt 22) VNone VNone; EvSshOpened;
            EvSshExec (VStr "/usr/local/bin/selftest"); EvSshClose]);
    try reflexivity.
  by apply fragment_search_agrees.
Defined.

(** ** One pass over the servers (C3) *)

Lemma quiet_nil : quiet [].
Proof. by repeat split. Qed.

Lemma quiet_app es1 es2 : quiet es1 → quiet es2 → quiet (es1 ++ es2).
Proof.
  unfold quiet, health_checks, restarts, notifications.
  rewrite !count_if_app. lia.
Qed.

Lemma quiet_cons e es :
  is_health_check e = false → is_restart e = false → is_notify e = false →
  quiet es → quiet (e :: es).
Proof.
  unfold quiet, health_checks, restarts, notifications. simpl.
  intros -> -> ->. lia.
Qed.

Create HintDb quiet.
#[local] Hint Resolve quiet_nil quiet_app quiet_cons : quiet.

Lemma quiet_plain e : plain e = true → quiet [e].
Proof. by destruct e. Qed.

Lemma emits_quiet_ret {A} (a : A) : emits_quiet (mret a).
Proof. intros h. apply quiet_nil. Qed.

Lemma emits_quiet_raise {A} e : emits_quiet (raise (A:=A) e).
Proof. intros h. apply quiet_nil. Qed.

Lemma emits_quiet_lift {A} (r : result A) : emits_quiet (lift r).
Proof. intros h. apply quiet_nil. Qed.

Lemma emits_quiet_observe {A} (f : list event → A) : emits_quiet (observe f).
Proof. intros h. apply quiet_nil. Qed.

Lemma emits_quiet_emit e : plain e = true → emits_quiet (emit e).
Proof. intros He h. by apply quiet_plain. Qed.

Lemma emits_quiet_request {A} e (f : list event → A) :
  plain e = true → emits_quiet (request e f).
Proof. intros He h. by apply quiet_plain. Qed.

Lemma emits_quiet_bind {A B} (m : M A) (f : A → M B) :
  emits_quiet m → (∀ a, emits_quiet (f a)) → emits_quiet (m ≫= f).
Proof.
  intros Hm Hf h. unfold mbind, M_bind, bind.
  specialize (Hm h). destruct (m h) as [[a|e] es]; [|done].
  specialize (Hf a (h ++ es)). destruct (f a (h ++ es)) as [r es'].
  by apply quiet_app.
Qed.

Lemma emits_quiet_try_except {A} (m : M A) handler :
  emits_quiet m → (∀ e, emits_quiet (handler e)) → emits_quiet (try_except m handler).
Proof.
  intros Hm Hf h. unfold try_except.
  specialize (Hm h). destruct (m h) as [[a|e] es]; [done|].
  specialize (Hf e (h ++ es)). destruct (handler e (h ++ es)) as [r es'].
  by apply quiet_app.
Qed.

(** Quietness follows the shape of the program. *)
Ltac quiet_step :=
  match goal with
  | |- emits_quiet (mret _) => apply emits_quiet_ret
  | |- emits_quiet (raise _) => apply emits_quiet_raise
  | |- emits_quiet (lift _) => apply emits_quiet_lift
  | |- emits_quiet (observe _) => apply emits_quiet_observe
  | |- emits_quiet (emit _) => apply emits_quiet_emit; reflexivity
  | |- emits_quiet (request _ _) => apply emits_quiet_request; reflexivity
  | |- emits_quiet (try_except _ _) => apply emits_quiet_try_except; [|intros ?]
  | |- emits_quiet (_ ≫= _) => apply emits_quiet_bind; [|intros ?]
  | |- emits_quiet (if ?b then _ else _) => destruct b
  | |- emits_quiet (match ?x with _ => _ end) => destruct x
  end.

Lemma run_ssh_quiet w server command : emits_quiet (run_ssh w server command).
Proof. unfold run_ssh. repeat quiet_step. Qed.

Lemma http_check_quiet w hc : emits_quiet (http_check w hc).
Proof. unfold http_check. repeat quiet_step. Qed.

Lemma remote_cmd_check_quiet w server hc : emits_quiet (remote_cmd_check w server hc).
Proof.
  unfold remote_cmd_check. repeat (quiet_step || apply run_ssh_quiet).
Qed.

Lemma emit_then_quiet {A} e (k : M A) h :
  emits_quiet k → ∃ es, ((emit e;; k) h).2 = e :: es ∧ quiet es.
Proof.
  intros Hk. unfold mbind, M_bind, bind, emit.
  specialize (Hk (h ++ [e])). destruct (k (h ++ [e])) as [r es]. by exists es.
Qed.

Lemma health_check_events w s h :
  ∃ es, (health_check w s h).2 = EvHealthCheck s :: es ∧ quiet es.
Proof.
  unfold health_check. apply emit_then_quiet.
  repeat (quiet_step || apply http_check_quiet || apply remote_cmd_check_quiet).
Qed.

Lemma restart_service_events w s h :
  ∃ es, (restart_service w s h).2 = EvRestart s :: es ∧ quiet es.
Proof.
  unfold restart_service. apply emit_then_quiet.
  repeat (quiet_step || apply run_ssh_quiet).
Qed.

Lemma notify_discord_events w message h :
  ∃ es, (notify_discord w message h).2 = EvNotify message :: es ∧ quiet es.
Proof. unfold notify_discord. apply emit_then_quiet. repeat quiet_step. Qed.

Ltac count :=
  unfold quiet, health_checks, restarts, notifications in *;
  repeat (simpl; rewrite ?count_if_app); simpl; lia.

Lemma process_server_ret w s h seg :
  process_server w s h = (Ret tt, seg) → handled w s h seg.
Proof.
  unfold process_server. run.
  destruct (subscript s "name") as [name|e] eqn:Hname; run; [|discriminate].
  match goal with |- context [health_check w s ?h'] =>
    destruct (health_check_events w s h') as (es_hc & Hes & Hq);
    destruct (health_check w s h') as [[[ok detail]|e] es] eqn:Hhc
  end; simpl in Hes; subst es; run; [|discriminate].
  destruct (truthy ok) eqn:Hok; run.
  - intros [= <-]. exists name, ok, detail. eexists _, _.
    split; [done|]. split; [done|]. split; [done|]. rewrite Hok.
    split; [|split]; count.
  - match goal with |- context [restart_service w s ?h'] =>
      destruct (restart_service_events w s h') as (es_r & Hes & Hqr);
      destruct (restart_service w s h') as [[[[code out] err]|e] es] eqn:Hr
    end; simpl in Hes; subst es; run; [|discriminate].
    match goal with |- context [notify_discord w ?m ?h'] =>
      destruct (notify_discord_events w m h') as (es_n & Hes & Hqn);
      destruct (notify_discord w m h') as [[[]|e] es] eqn:Hn
    end; simpl in Hes; subst es; run; [|discriminate].
    intros [= <-]. exists name, ok, detail. eexists _, _.
    split; [done|]. split; [done|]. split; [done|]. rewrite Hok.
    split; [|split]; count.
Qed.

Lemma for_each_cons_ret body x rest h es :
  for_each body (x :: rest) h = (Ret tt, es) →
  ∃ seg es', body x h = (Ret tt, seg)
    ∧ for_each body rest (h ++ seg) = (Ret tt, es') ∧ es = seg ++ es'.
Proof.
  cbn [for_each]. unfold mbind, M_bind, bind.
  destruct (body x h) as [[[]|e] seg]; simpl; [|by intros [=]].
  destruct (for_each body rest (h ++ seg)) as [r es'] eqn:Hrest.
  intros [= -> <-]. by exists seg, es'.
Qed.

Lemma handled_one_check w s h seg : handled w s h seg → health_checks seg = 1%nat.
Proof. by intros (? & ? & ? & ? & ? & _ & _ & _ & ? & _). Qed.

(** Whatever happens to one server, it is checked at most once, restarted only
    after its check and notified about only after its restart. *)
Lemma process_server_at_most_once w s h :
  (notifications (process_server w s h).2 ≤ restarts (process_server w s h).2)%nat
  ∧ (restarts (process_server w s h).2 ≤ health_checks (process_server w s h).2)%nat
  ∧ (health_checks (process_server w s h).2 ≤ 1)%nat.
Proof.
  unfold process_server. run.
  destruct (subscript s "name") as [name|e]; run; [|count].
  match goal with |- context [health_check w s ?h'] =>
    destruct (health_check_events w s h') as (es_hc & Hes & Hq);
    destruct (health_check w s h') as [[[ok detail]|e] es]
  end; simpl in Hes; subst es; run; [|count].
  destruct (truthy ok); run; [count|].
  match goal with |- context [restart_service w s ?h'] =>
    destruct (restart_service_events w s h') as (es_r & Hes & Hqr);
    destruct (restart_service w s h') as [[[[code out] err]|e] es]
  end; simpl in Hes; subst es; run; [|count].
  match goal with |- context [notify_discord w ?m ?h'] =>
    destruct (notify_discord_events w m h') as (es_n & Hes & Hqn);
    destruct (notify_discord w m h') as [[[]|e] es]
  end; simpl in Hes; subst es; run; count.
Qed.

Lemma run_pass_at_most_once w servers h :
  (notifications (run_pass w servers h).2 ≤ restarts (run_pass w servers h).2)%nat
  ∧ (restarts (run_pass w servers h).2 ≤ health_checks (run_pass w servers h).2)%nat
  ∧ (health_checks (run_pass w servers h).2 ≤ length servers)%nat.
Proof.
  unfold run_pass. revert h. induction servers as [|s servers IH]; intros h.
  - unfold health_checks, restarts, notifications. simpl. lia.
  - cbn [for_each]. unfold mbind, M_bind, bind.
    pose proof (process_server_at_most_once w s h) as Hs.
    unfold health_checks, restarts, notifications in *.
    destruct (process_server w s h) as [[[]|e] seg]; simpl in *; [|lia].
    specialize (IH (h ++ seg)).
    destruct (for_each (process_server w) servers (h ++ seg)) as [r es']. simpl in *.
    rewrite !count_if_app. lia.
Qed.

Lemma run_pass_split w servers h es :
  run_pass w servers h = (Ret tt, es) →
  ∃ segs, es = concat segs ∧ pass_split w h servers segs.
Proof.
  unfold run_pass. revert h es. induction servers as [|s servers IH]; intros h es.
  - intros [= <-]. exists []. split; [done | constructor].
  - intros (seg & es' & Hs & Hrest & ->)%for_each_cons_ret.
    destruct (IH _ _ Hrest) as (segs & -> & Hsplit).
    exists (seg :: segs). split; [done|].
    constructor; [by apply process_server_ret | done].
Qed.

Lemma pass_split_checks w h servers segs :
  pass_split w h servers segs → health_checks (concat segs) = length servers.
Proof.
  induction 1 as [|h s seg servers segs Hs _ IH]; [done|].
  simpl. unfold health_checks in *. rewrite count_if_app, IH.
  apply handled_one_check in Hs. unfold health_checks in Hs. lia.
Qed.

(** C3, as stated, fails: a pass stops at the first exception.  Here the first
    of two servers has no check type, [health_check] raises [KeyError], and
    the second server is never evaluated: one evaluation for two servers. *)
Lemma pass_stops_at_first_exception :
  run_pass sample_world [typeless_server; web_server] [] =
    (Raise (KeyError "type"),
     [EvLog INFO "[%s] Checking health..." [VStr "web"];
      EvHealthCheck typeless_server])
  ∧ health_checks (run_pass sample_world [typeless_server; web_server] []).2 = 1%nat
  ∧ length [typeless_server; web_server] = 2%nat.
Proof. repeat split. Qed.

(** The same happens to a well-formed config when SSH is down: the HTTP check
    of the first server gives healthy=false, its restart raises, no
    notification is sent and the second server is never evaluated. *)
Lemma pass_aborts_when_restart_raises :
  (run_pass dead_world [web_server; db_server] []).1 = Raise (LibError "timed out")
  ∧ health_checks (run_pass dead_world [web_server; db_server] []).2 = 1%nat
  ∧ restarts (run_pass dead_world [web_server; db_server] []).2 = 1%nat
  ∧ notifications (run_pass dead_world [web_server; db_server] []).2 = 0%nat.
Proof. repeat split. Qed.

(** C3 (amended): a pass over [N] servers never makes more than [N] health
    evaluations, and never more restarts than evaluations or more
    notifications than restarts.  When the pass completes (nothing raises) it
    makes exactly [N] evaluations, and its events split into one segment per
    server, in order, in which the server is evaluated once and then, if the
    verdict is healthy, neither restarted nor notified about, and otherwise
    restarted exactly once and notified about exactly once. *)
Theorem pass_counts w servers h :
  ((notifications (run_pass w servers h).2 ≤ restarts (run_pass w servers h).2)%nat
   ∧ (restarts (run_pass w servers h).2 ≤ health_checks (run_pass w servers h).2)%nat
   ∧ (health_checks (run_pass w servers h).2 ≤ length servers)%nat)
  ∧ ((run_pass w servers h).1 = Ret tt →
     health_checks (run_pass w servers h).2 = length servers
     ∧ ∃ segs, (run_pass w servers h).2 = concat segs ∧ pass_split w h servers segs).
Proof.
  split; [apply run_pass_at_most_once|].
  destruct (run_pass w servers h) as [r es] eqn:Hrun. simpl. intros ->.
  destruct (run_pass_split _ _ _ _ Hrun) as (segs & -> & Hsplit).
  split; [by eapply pass_split_checks | by exists segs].
Qed.

(** A pass over a healthy and an unhealthy server that completes. *)
Lemma pass_counts_witness :
  health_checks (run_pass sample_world [web_server; db_server] []).2 = 2%nat.
Proof.
  apply (proj2 (pass_counts sample_world [web_server; db_server] [])).
  reflexivity.
Defined.

(** X22: when the config loads to a mapping, logging is set up and [servers]
    is a list, the outcome of [run_orchestrator] is the outcome of the pass
    over that list, and its events are those of loading and logging followed
    by those of the pass. *)
Lemma run_orchestrator_pass w path h (cfg : gmap string value) es0 servers :
  load_config w path h = (Ret (VDict cfg), es0) →
  logging_setup w (h ++ es0) (dict_get cfg "log_file" (VStr "logs/orchestrator.log")) = None →
  dict_get cfg "servers" (VList []) = VList servers →
  run_orchestrator w path h =
    let start := es0 ++ [EvSetupLogging
                           (dict_get cfg "log_file" (VStr "logs/orchestrator.log"))] in
    ((run_pass w servers (h ++ start)).1, start ++ (run_pass w servers (h ++ start)).2).
Proof.
  intros Hload Hlog Hservers. unfold run_orchestrator, setup_logging.
  unfold mbind at 1. unfold M_bind, bind. rewrite Hload. run.
  rewrite Hlog. run. rewrite Hservers. run.
  by destruct (run_pass w servers _).
Qed.

(** * Further properties *)

(** ** The SSH helper *)

(** X1: a call of [run_ssh] establishes at most one session.  When it returns
    it has established one and closed it; when it raises it has closed
    nothing, so a session established before the exception stays open. *)
Theorem run_ssh_session_balance w server command h :
  if is_ret (run_ssh w server command h).1
  then opened (run_ssh w server command h).2 = 1%nat
       ∧ closed (run_ssh w server command h).2 = 1%nat
  else closed (run_ssh w server command h).2 = 0%nat
       ∧ (opened (run_ssh w server command h).2 ≤ 1)%nat.
Proof.
  destruct server; try (simpl; split; [done | unfold opened; simpl; lia]).
  run_ssh_cases; unfold opened, closed; simpl; split; (done || lia).
Qed.

(** X2: [run_ssh] reads [server["host"]] first: without it the call raises
    [KeyError('host')] with no effect at all.  Otherwise its first effect is
    one connection attempt to that host, on port 22 unless [port] is set, with
    [username] and [private_key] or [None] in their place; if the attempt
    raises, that exception is the outcome and nothing else happens. *)
Theorem run_ssh_connects_first w (sd : gmap string value) command h :
  match sd !! "host" with
  | None => run_ssh w (VDict sd) command h = (Raise (KeyError "host"), [])
  | Some host =>
      let port := dict_get sd "port" (VInt 22) in
      let username := dict_get sd "username" VNone in
      let key := dict_get sd "private_key" VNone in
      ∃ rest,
        (run_ssh w (VDict sd) command h).2
          = EvSshConnect host port username key :: rest
        ∧ match ssh_connect w h host port username key with
          | Some e => run_ssh w (VDict sd) command h
                      = (Raise e, [EvSshConnect host port username key])
          | None => ∃ rest', rest = EvSshOpened :: EvSshExec command :: rest'
          end
  end.
Proof.
  unfold run_ssh, getitem, dict_get.
  destruct (sd !! "host") as [host|]; run; [|done].
  destruct (ssh_connect _ _ _ _ _ _); run; [by eexists|].
  destruct (ssh_exec _ _ _) as [e|code out err]; run; [by eexists; split; eauto|].
  destruct out; run; [|by eexists; split; eauto].
  destruct err; run; by eexists; split; eauto.
Qed.

(** ** Health checks *)

(** X4: a server entry without ["health_check"] makes the evaluation raise
    [KeyError('health_check')], and one whose ["health_check"] is not a mapping
    makes it raise the [TypeError] of subscripting that value; in both cases
    nothing outside is touched. *)
Theorem health_check_requires_check w (sd : gmap string value) h :
  match sd !! "health_check" with
  | None =>
      health_check w (VDict sd) h =
        (Raise (KeyError "health_check"), [EvHealthCheck (VDict sd)])
  | Some (VDict _) => True
  | Some v =>
      health_check w (VDict sd) h =
        (Raise (subscript_error v), [EvHealthCheck (VDict sd)])
  end.
Proof.
  unfold health_check, subscript, getitem. run.
  destruct (sd !! "health_check") as [[]|]; by run.
Qed.

(** X5: an HTTP check without ["url"] sends no request: the [KeyError] is
    caught by the [try] and the verdict is healthy=false with detail
    "HTTP error: 'url'". *)
Theorem http_check_without_url w (sd hc : gmap string value) h :
  sd !! "health_check" = Some (VDict hc) →
  hc !! "type" = Some (VStr "http") →
  hc !! "url" = None →
  health_check w (VDict sd) h =
    (Ret (TBool false, "HTTP error: 'url'"), [EvHealthCheck (VDict sd)]).
Proof.
  intros Hhc Ht Hurl. unfold health_check, subscript, getitem. run.
  rewrite Hhc. run. rewrite Ht. run.
  unfold http_check, getitem. run. by rewrite Hurl.
Qed.

Lemma http_check_without_url_witness :
  health_check sample_world (VDict urlless_server) [] =
    (Ret (TBool false, "HTTP error: 'url'"), [EvHealthCheck (VDict urlless_server)]).
Proof.
  apply (http_check_without_url sample_world urlless_server
           (list_to_map [("type", VStr "http")]) []); reflexivity.
Defined.

(** X6: when the GET returns a response and [contains] is absent or a string,
    the detail is "HTTP <status>" whether the verdict is healthy or not. *)
Theorem http_detail_is_status w (sd hc : gmap string value) url h status_code text :
  sd !! "health_check" = Some (VDict hc) →
  hc !! "type" = Some (VStr "http") →
  hc !! "url" = Some url →
  http_get w (h ++ [EvHealthCheck (VDict sd)]) url (dict_get hc "timeout" (VInt 5))
    = HttpResponse status_code text →
  (hc !! "contains" = None ∨ ∃ s, hc !! "contains" = Some (VStr s)) →
  ∃ ok, health_check w (VDict sd) h =
          (Ret (TBool ok, "HTTP " +:+ pretty status_code),
           [EvHealthCheck (VDict sd); EvHttpGet url (dict_get hc "timeout" (VInt 5))]).
Proof.
  intros Hhc Ht Hurl Hget Hc.
  rewrite (health_check_http _ _ _ _ _ Hhc Ht Hurl), Hget. unfold http_verdict.
  destruct (eq_int status_code _); [|by eexists].
  destruct Hc as [->|[s ->]]; by eexists.
Qed.

Lemma http_detail_is_status_witness :
  ∃ ok, health_check not_ready_world (VDict ready_server) [] =
          (Ret (TBool ok, "HTTP " +:+ pretty 200),
           [EvHealthCheck (VDict ready_server);
            EvHttpGet (VStr "http://10.0.0.5/health")
              (dict_get ready_check "timeout" (VInt 5))]).
Proof.
  apply (http_detail_is_status not_ready_world ready_server ready_check
           (VStr "http://10.0.0.5/health") [] 200 "not ready yet");
    try reflexivity.
  right. by exists "ready".
Defined.

(** X7: a [contains] that is not a string is only looked at when the status
    matches.  With the expected status, [in] raises a [TypeError], which the
    [try] turns into healthy=false with an "HTTP error: ..." detail; with
    another status the verdict is healthy=false with detail "HTTP <status>". *)
Theorem http_contains_not_a_string w (sd hc : gmap string value) url h status_code text c :
  sd !! "health_check" = Some (VDict hc) →
  hc !! "type" = Some (VStr "http") →
  hc !! "url" = Some url →
  http_get w (h ++ [EvHealthCheck (VDict sd)]) url (dict_get hc "timeout" (VInt 5))
    = HttpResponse status_code text →
  hc !! "contains" = Some c →
  (∀ s, c ≠ VStr s) →
  health_check w (VDict sd) h =
    (Ret (TBool false,
          if eq_int status_code (dict_get hc "expected_status" (VInt 200))
          then "HTTP error: 'in <string>' requires string as left operand, not "
               +:+ type_name c
          else "HTTP " +:+ pretty status_code),
     [EvHealthCheck (VDict sd); EvHttpGet url (dict_get hc "timeout" (VInt 5))]).
Proof.
  intros Hhc Ht Hurl Hget Hc Hns.
  rewrite (health_check_http _ _ _ _ _ Hhc Ht Hurl), Hget. unfold http_verdict.
  rewrite Hc. destruct (eq_int status_code _); [|done].
  destruct c as [| | |s| |]; try done. by destruct (Hns s).
Qed.

Lemma http_contains_not_a_string_witness :
  health_check sample_world (VDict numeric_contains_server) [] =
    (Ret (TBool false,
          "HTTP error: 'in <string>' requires string as left operand, not int"),
     [EvHealthCheck (VDict numeric_contains_server);
      EvHttpGet (VStr "http://10.0.0.5/health") (VInt 5)]).
Proof.
  apply (http_contains_not_a_string sample_world numeric_contains_server
           numeric_contains_check (VStr "http://10.0.0.5/health") [] 200 "ok" (VInt 1));
    try reflexivity.
  intros s. discriminate.
Defined.

(** X8: a remote-command check without ["command"] raises
    [KeyError('command')] before any SSH connection is attempted. *)
Theorem remote_cmd_requires_command w (sd hc : gmap string value) h :
  sd !! "health_check" = Some (VDict hc) →
  hc !! "type" = Some (VStr "remote_cmd") →
  hc !! "command" = None →
  health_check w (VDict sd) h =
    (Raise (KeyError "command"), [EvHealthCheck (VDict sd)]).
Proof.
  intros Hhc Ht Hcmd. unfold health_check, subscript, getitem. run.
  rewrite Hhc. run. rewrite Ht. run.
  unfold remote_cmd_check, getitem. run. by rewrite Hcmd.
Qed.

Lemma remote_cmd_requires_command_witness :
  health_check sample_world (VDict commandless_server) [] =
    (Raise (KeyError "command"), [EvHealthCheck (VDict commandless_server)]).
Proof.
  apply (remote_cmd_requires_command sample_world commandless_server
           (list_to_map [("type", VStr "remote_cmd")]) []); reflexivity.
Defined.

(** X9: the pattern of a remote-command check is only used when the exit code
    is 0.  If [re.search] raises on it (an invalid pattern, say), a command
    that exits 0 makes [health_check] raise that exception, while a command
    that exits non-zero still gets the verdict healthy=false. *)
Theorem remote_cmd_bad_pattern w (sd hc : gmap string value) command h code out err es p e :
  sd !! "health_check" = Some (VDict hc) →
  hc !! "type" = Some (VStr "remote_cmd") →
  hc !! "command" = Some command →
  run_ssh w (VDict sd) command (h ++ [EvHealthCheck (VDict sd)])
    = (Ret (code, out, err), es) →
  hc !! "expect_stdout_regex" = Some p →
  re_search w p out = ReRaises e →
  health_check w (VDict sd) h =
    (if code =? 0 then Raise e
     else Ret (TBool false,
               "exit=" +:+ pretty code +:+ ", out=" +:+ out +:+ ", err=" +:+ err),
     EvHealthCheck (VDict sd) :: es).
Proof.
  intros Hhc Ht Hcmd Hssh Hp Hre.
  rewrite (health_check_remote_cmd _ _ _ _ _ _ _ _ _ Hhc Ht Hcmd Hssh).
  unfold remote_verdict. rewrite Hp, Hre. by destruct (code =? 0).
Qed.

Lemma remote_cmd_bad_pattern_witness :
  health_check fail_world (VDict bad_pattern_server) [] =
    (Raise (LibError "pattern outside the fragment"),
     [EvHealthCheck (VDict bad_pattern_server);
      EvSshConnect (VStr "10.0.0.8") (VInt 22) VNone VNone; EvSshOpened;
      EvSshExec (VStr "uptime"); EvSshClose]).
Proof.
  apply (remote_cmd_bad_pattern fail_world bad_pattern_server bad_pattern_check
           (VStr "uptime") [] 0 "FAIL" ""
           [EvSshConnect (VStr "10.0.0.8") (VInt 22) VNone VNone; EvSshOpened;
            EvSshExec (VStr "uptime"); EvSshClose] (VStr "("));
    reflexivity.
Defined.

(** ** The notifier *)

Lemma notify_discord_returns w message h :
  ∃ es, notify_discord w message h = (Ret tt, EvNotify message :: es).
Proof.
  unfold notify_discord, raise_for_status. run.
  destruct (no_webhook _); run; [by eexists|].
  destruct (http_post _ _ _ _) as [e|status_code reason]; run; [by eexists|].
  destruct (_ && _); run; [by eexists|].
  destruct (_ && _); run; by eexists.
Qed.



(** ** The config loader *)

(** X11: [load_config] opens the file before it looks at the suffix.  If
    [open] raises, that is the outcome.  Otherwise the suffix alone picks the
    parser ([.yaml]/[.yml]: YAML, [.json]: JSON, anything else: [ValueError])
    and the file is closed again on every path, also when the parser raises
    or the suffix is not supported. *)
Theorem load_config_closes_file w path h :
  match fs_open w h path with
  | Some e => load_config w path h = (Raise e, [EvOpen path])
  | None =>
      load_config w path h =
        (if bool_decide (suffix path = ".yaml") || bool_decide (suffix path = ".yml")
         then yaml_safe_load w (h ++ [EvOpen path]) path
         else if bool_decide (suffix path = ".json")
         then json_load w (h ++ [EvOpen path]) path
         else Raise (ValueError "Unsupported config format. Use .yaml, .yml or .json"),
         [EvOpen path; EvClose path])
  end.
Proof.
  unfold load_config. run. destruct (fs_open w h path); run; [done|].
  destruct (decide (suffix path = ".yaml")) as [Hy|Hy].
  { rewrite (bool_decide_eq_true_2 (suffix path ∈ _)) by (rewrite Hy; left).
    rewrite (bool_decide_eq_true_2 _ Hy). run.
    by destruct (yaml_safe_load _ _ _). }
  rewrite (bool_decide_eq_false_2 _ Hy).
  destruct (decide (suffix path = ".yml")) as [Hm|Hm].
  { rewrite (bool_decide_eq_true_2 (suffix path ∈ _)) by (rewrite Hm; right; left).
    rewrite (bool_decide_eq_true_2 _ Hm). run.
    by destruct (yaml_safe_load _ _ _). }
  rewrite (bool_decide_eq_false_2 _ Hm).
  rewrite (bool_decide_eq_false_2 (suffix path ∈ _))
    by (rewrite !not_elem_of_cons; repeat split; [done | done | apply not_elem_of_nil]).
  destruct (bool_decide (suffix path = ".json")); run; [|done].
  by destruct (json_load _ _ _).
Qed.

(** ** The main routine before the first server *)

(** X12: a config with no ["servers"] key, or with an empty list, gives a
    clean run: logging is set up (on "logs/orchestrator.log" unless
    [log_file] is set) and the run returns without touching any server. *)
Theorem run_without_servers w path h (cfg : gmap string value) es0 :
  load_config w path h = (Ret (VDict cfg), es0) →
  let log_file := dict_get cfg "log_file" (VStr "logs/orchestrator.log") in
  logging_setup w (h ++ es0) log_file = None →
  cfg !! "servers" = None ∨ cfg !! "servers" = Some (VList []) →
  run_orchestrator w path h = (Ret tt, es0 ++ [EvSetupLogging log_file]).
Proof.
  intros Hload log_file Hlog Hservers. unfold run_orchestrator, setup_logging.
  unfold mbind at 1. unfold M_bind, bind. rewrite Hload. run.
  fold log_file. rewrite Hlog. run. unfold dict_get.
  destruct Hservers as [->| ->]; by run.
Qed.

(** The YAML config of the bare world has no servers. *)
Lemma run_without_servers_witness :
  run_orchestrator bare_config_world "conf.yaml" [] =
    (Ret tt, [EvOpen "conf.yaml"; EvClose "conf.yaml";
              EvSetupLogging (VStr "/tmp/orchestrator.log")]).
Proof.
  apply (run_without_servers bare_config_world "conf.yaml" [] bare_config
           [EvOpen "conf.yaml"; EvClose "conf.yaml"]); [reflexivity | reflexivity |].
  by left.
Defined.

(** X13: a config document that is not a mapping at the top (an empty YAML
    file loads as [None], for one) makes the run raise [AttributeError] right
    after loading: logging is not set up and no server is processed. *)
Theorem run_with_non_mapping_config w path h cfg es0 :
  load_config w path h = (Ret cfg, es0) →
  (∀ d, cfg ≠ VDict d) →
  run_orchestrator w path h =
    (Raise (AttributeError ("'" +:+ type_name cfg +:+ "' object has no attribute 'get'")),
     es0).
Proof.
  intros Hload Hcfg. unfold run_orchestrator.
  unfold mbind at 1. unfold M_bind, bind. rewrite Hload.
  destruct cfg; run; try done. by destruct (Hcfg d).
Qed.

Lemma run_with_non_mapping_config_witness :
  run_orchestrator bare_config_world "conf.json" [] =
    (Raise (AttributeError "'NoneType' object has no attribute 'get'"),
     [EvOpen "conf.json"; EvClose "conf.json"]).
Proof.
  apply (run_with_non_mapping_config bare_config_world "conf.json" [] VNone
           [EvOpen "conf.json"; EvClose "conf.json"]); [reflexivity|].
  intros d. discriminate.
Defined.

(** X14: when setting up logging raises (the log directory or file cannot be
    created), the run raises that exception before any server is processed. *)
Theorem run_with_failing_logging w path h (cfg : gmap string value) es0 e :
  load_config w path h = (Ret (VDict cfg), es0) →
  let log_file := dict_get cfg "log_file" (VStr "logs/orchestrator.log") in
  logging_setup w (h ++ es0) log_file = Some e →
  run_orchestrator w path h = (Raise e, es0 ++ [EvSetupLogging log_file]).
Proof.
  intros Hload log_file Hlog. unfold run_orchestrator, setup_logging.
  unfold mbind at 1. unfold M_bind, bind. rewrite Hload. run.
  fold log_file. rewrite Hlog. by run.
Qed.

Lemma run_with_failing_logging_witness :
  run_orchestrator readonly_world "conf.yaml" [] =
    (Raise (LibError "Permission denied"),
     [EvOpen "conf.yaml"; EvClose "conf.yaml";
      EvSetupLogging (VStr "/tmp/orchestrator.log")]).
Proof.
  apply (run_with_failing_logging readonly_world "conf.yaml" [] bare_config
           [EvOpen "conf.yaml"; EvClose "conf.yaml"]); reflexivity.
Defined.

(** X15: a ["servers"] value that cannot be iterated ([null], a number, a
    bool) makes the run raise [TypeError] after logging is set up; the default
    empty list only stands in for a missing key, not for [null]. *)
Theorem run_with_servers_not_iterable w path h (cfg : gmap string value) es0 v :
  load_config w path h = (Ret (VDict cfg), es0) →
  let log_file := dict_get cfg "log_file" (VStr "logs/orchestrator.log") in
  logging_setup w (h ++ es0) log_file = None →
  cfg !! "servers" = Some v →
  v = VNone ∨ (∃ b, v = VBool b) ∨ (∃ z, v = VInt z) →
  run_orchestrator w path h =
    (Raise (TypeError ("'" +:+ type_name v +:+ "' object is not iterable")),
     es0 ++ [EvSetupLogging log_file]).
Proof.
  intros Hload log_file Hlog Hservers Hv. unfold run_orchestrator, setup_logging.
  unfold mbind at 1. unfold M_bind, bind. rewrite Hload. run.
  fold log_file. rewrite Hlog. run. unfold dict_get. rewrite Hservers.
  destruct Hv as [->|[[b ->]|[z ->]]]; by run.
Qed.

Lemma run_with_servers_not_iterable_witness :
  run_orchestrator null_servers_world "conf.yaml" [] =
    (Raise (TypeError "'NoneType' object is not iterable"),
     [EvOpen "conf.yaml"; EvClose "conf.yaml";
      EvSetupLogging (VStr "logs/orchestrator.log")]).
Proof.
  apply (run_with_servers_not_iterable null_servers_world "conf.yaml" []
           null_servers_config [EvOpen "conf.yaml"; EvClose "conf.yaml"] VNone);
    try reflexivity.
  by left.
Defined.

(** ** One server *)

(** What [process_server] does with an unhealthy server whose restart runs. *)
Lemma process_server_unhealthy_run w (sd : gmap string value) name h ok detail es_hc
    code out err es_r :
  sd !! "name" = Some name →
  let checking := EvLog INFO "[%s] Checking health..." [name] in
  let warning := EvLog WARNING "[%s] Unhealthy: %s" [name; VStr detail] in
  health_check w (VDict sd) (h ++ [checking]) = (Ret (ok, detail), es_hc) →
  truthy ok = false →
  restart_service w (VDict sd) (h ++ checking :: es_hc ++ [warning])
    = (Ret (code, out, err), es_r) →
  let msg := "Restart " +:+ (if code =? 0 then "OK" else "FAILED") +:+ ": exit="
             +:+ pretty code +:+ ", out=" +:+ out +:+ ", err=" +:+ err in
  let note := "⚠️ " +:+ py_str w name +:+ " unhealthy" +:+ nl
              +:+ detail +:+ nl +:+ msg in
  ∃ es_n,
    process_server w (VDict sd) h =
      (Ret tt,
       checking :: es_hc ++ warning :: es_r
         ++ EvLog INFO "[%s] %s" [name; VStr msg] :: EvNotify note :: es_n)
    ∧ quiet es_n.
Proof.
  intros Hname checking warning Hhc Hok Hr msg note.
  unfold process_server, subscript, getitem. run. rewrite Hname. run.
  fold checking. rewrite Hhc. run. rewrite Hok. run.
  fold warning. rewrite Hr. run. fold msg. fold note.
  match goal with |- context [notify_discord w note ?h'] =>
    destruct (notify_discord_returns w note h') as (es_n & Hn);
    destruct (notify_discord_events w note h') as (es' & Hes & Hq);
    rewrite Hn in Hes |- *; simpl in Hes; injection Hes as <-
  end.
  by exists es_n.
Qed.

(** X16: for a server found unhealthy whose restart command runs, the server
    is always reported, whether the restart succeeded or not: [process_server]
    returns normally, and after the health check, the warning and the restart
    it logs the outcome and calls [notify_discord] with
    "<warning sign> <name> unhealthy", the check's detail and
    "Restart OK: ..." when the exit code is 0, "Restart FAILED: ..." otherwise.
    That call is the only one: nothing after it enters [health_check],
    [restart_service] or [notify_discord] again, and over the whole of the
    server's processing each of the three is entered exactly once. *)
Theorem process_server_reports w (sd : gmap string value) name h ok detail es_hc
    code out err es_r :
  sd !! "name" = Some name →
  let checking := EvLog INFO "[%s] Checking health..." [name] in
  let warning := EvLog WARNING "[%s] Unhealthy: %s" [name; VStr detail] in
  health_check w (VDict sd) (h ++ [checking]) = (Ret (ok, detail), es_hc) →
  truthy ok = false →
  restart_service w (VDict sd) (h ++ checking :: es_hc ++ [warning])
    = (Ret (code, out, err), es_r) →
  let msg := "Restart " +:+ (if code =? 0 then "OK" else "FAILED") +:+ ": exit="
             +:+ pretty code +:+ ", out=" +:+ out +:+ ", err=" +:+ err in
  let note := "⚠️ " +:+ py_str w name +:+ " unhealthy" +:+ nl
              +:+ detail +:+ nl +:+ msg in
  ∃ es_n,
    process_server w (VDict sd) h =
      (Ret tt,
       checking :: es_hc ++ warning :: es_r
         ++ EvLog INFO "[%s] %s" [name; VStr msg] :: EvNotify note :: es_n)
    ∧ health_checks es_n = 0%nat ∧ restarts es_n = 0%nat ∧ notifications es_n = 0%nat
    ∧ health_checks (process_server w (VDict sd) h).2 = 1%nat
    ∧ restarts (process_server w (VDict sd) h).2 = 1%nat
    ∧ notifications (process_server w (VDict sd) h).2 = 1%nat.
Proof.
  intros Hname checking warning Hhc Hok Hr msg note.
  destruct (process_server_unhealthy_run w sd name h ok detail es_hc code out err es_r
              Hname Hhc Hok Hr) as (es_n & Hrun & Hq0 & Hq1 & Hq2).
  exists es_n. split; [exact Hrun|]. split; [exact Hq0|].
  split; [exact Hq1|]. split; [exact Hq2|].
  pose proof (process_server_ret _ _ _ _ Hrun)
    as (name' & ok' & detail' & es & rest & Hn & Hhc' & _ & Hone & Hcount).
  simpl in Hn. unfold getitem in Hn. rewrite Hname in Hn. injection Hn as <-.
  fold checking in Hhc'. rewrite Hhc in Hhc'. injection Hhc' as <- <- <-.
  rewrite Hok in Hcount. rewrite Hrun. simpl. split; [exact Hone | exact Hcount].
Qed.

(** The worker whose self-test exits 0 and prints "FAIL": one restart and one
    notification, which says "Restart OK". *)
Lemma process_server_reports_witness :
  ∃ es_n,
    process_server fail_world (VDict ok_server) [] =
      (Ret tt,
       EvLog INFO "[%s] Checking health..." [VStr "worker"]
       :: [EvHealthCheck (VDict ok_server);
           EvSshConnect (VStr "10.0.0.8") (VInt 22) VNone VNone; EvSshOpened;
           EvSshExec (VStr "/usr/local/bin/selftest"); EvSshClose]
       ++ EvLog WARNING "[%s] Unhealthy: %s"
            [VStr "worker"; VStr "exit=0, out=FAIL, err="]
       :: [EvRestart (VDict ok_server);
           EvSshConnect (VStr "10.0.0.8") (VInt 22) VNone VNone; EvSshOpened;
           EvSshExec (VStr "sudo systemctl restart None"); EvSshClose]
       ++ EvLog INFO "[%s] %s"
            [VStr "worker"; VStr "Restart OK: exit=0, out=FAIL, err="]
       :: EvNotify ("⚠️ worker unhealthy" +:+ nl +:+ "exit=0, out=FAIL, err="
                    +:+ nl +:+ "Restart OK: exit=0, out=FAIL, err=")
       :: es_n)
    ∧ notifications es_n = 0%nat
    ∧ notifications (process_server fail_world (VDict ok_server) []).2 = 1%nat.
Proof.
  destruct (process_server_reports fail_world ok_server (VStr "worker") [] TNone
              "exit=0, out=FAIL, err="
              [EvHealthCheck (VDict ok_server);
               EvSshConnect (VStr "10.0.0.8") (VInt 22) VNone VNone; EvSshOpened;
               EvSshExec (VStr "/usr/local/bin/selftest"); EvSshClose]
              0 "FAIL" ""
              [EvRestart (VDict ok_server);
               EvSshConnect (VStr "10.0.0.8") (VInt 22) VNone VNone; EvSshOpened;
               EvSshExec (VStr "sudo systemctl restart None"); EvSshClose]
              eq_refl eq_refl eq_refl eq_refl)
    as (es_n & Hrun & _ & _ & Hquiet & _ & _ & Hone).
  exists es_n. split; [exact Hrun|]. split; [exact Hquiet | exact Hone].
Defined.

(** X17: when the restart of an unhealthy server raises (the SSH connection
    fails, say), [process_server] raises that exception right there: the
    outcome is not logged and [notify_discord] is not called. *)
Theorem process_server_restart_raises w (sd : gmap string value) name h ok detail
    es_hc e es_r :
  sd !! "name" = Some name →
  let checking := EvLog INFO "[%s] Checking health..." [name] in
  let warning := EvLog WARNING "[%s] Unhealthy: %s" [name; VStr detail] in
  health_check w (VDict sd) (h ++ [checking]) = (Ret (ok, detail), es_hc) →
  truthy ok = false →
  restart_service w (VDict sd) (h ++ checking :: es_hc ++ [warning]) = (Raise e, es_r) →
  process_server w (VDict sd) h = (Raise e, checking :: es_hc ++ warning :: es_r)
  ∧ notifications (checking :: es_hc ++ warning :: es_r) = 0%nat.
Proof.
  intros Hname checking warning Hhc Hok Hr. split.
  - unfold process_server, subscript, getitem. run. rewrite Hname. run.
    fold checking. rewrite Hhc. run. rewrite Hok. run.
    fold warning. rewrite Hr. by run.
  - destruct (health_check_events w (VDict sd) (h ++ [checking])) as (es1 & H1 & Hq1).
    destruct (restart_service_events w (VDict sd) (h ++ checking :: es_hc ++ [warning]))
      as (es2 & H2 & Hq2).
    rewrite Hhc in H1. rewrite Hr in H2. simpl in H1, H2. subst es_hc es_r. count.
Qed.

(** The web server of the dead world: the probe is refused and so is SSH. *)
Lemma process_server_restart_raises_witness :
  process_server dead_world (VDict ready_server) [] =
    (Raise (LibError "timed out"),
     EvLog INFO "[%s] Checking health..." [VStr "web"]
     :: [EvHealthCheck (VDict ready_server);
         EvHttpGet (VStr "http://10.0.0.5/health") (VInt 5)]
     ++ EvLog WARNING "[%s] Unhealthy: %s"
          [VStr "web"; VStr "HTTP error: Connection refused"]
     :: [EvRestart (VDict ready_server);
         EvSshConnect (VStr "10.0.0.5") (VInt 22) VNone VNone]).
Proof.
  apply (process_server_restart_raises dead_world ready_server (VStr "web") []
           (TBool false) "HTTP error: Connection refused"
           [EvHealthCheck (VDict ready_server);
            EvHttpGet (VStr "http://10.0.0.5/health") (VInt 5)]
           (LibError "timed out")
           [EvRestart (VDict ready_server);
            EvSshConnect (VStr "10.0.0.5") (VInt 22) VNone VNone]);
    reflexivity.
Defined.

(** ** The pass *)

(** X18: a pass over [l1 ++ l2] is the pass over [l1] followed, from the
    history it leaves, by the pass over [l2]; if the pass over [l1] raises,
    that is the outcome and no server of [l2] is touched. *)
Theorem run_pass_app w l1 l2 h :
  run_pass w (l1 ++ l2) h =
    match run_pass w l1 h with
    | (Ret _, es1) =>
        ((run_pass w l2 (h ++ es1)).1, es1 ++ (run_pass w l2 (h ++ es1)).2)
    | (Raise e, es1) => (Raise e, es1)
    end.
Proof.
  unfold run_pass. revert h. induction l1 as [|s l1 IH]; intros h.
  - simpl. rewrite app_nil_r. by destruct (for_each _ l2 h).
  - cbn [for_each app]. unfold mbind, M_bind, bind.
    destruct (process_server w s h) as [[[]|e] seg]; [|done].
    rewrite IH. destruct (for_each (process_server w) l1 (h ++ seg)) as [[[]|e] es1].
    + rewrite <- app_assoc.
      destruct (for_each (process_server w) l2 (h ++ seg ++ es1)); simpl.
      by rewrite app_assoc.
    + done.
Qed.

Lemma checked_app es1 es2 : checked (es1 ++ es2) = checked es1 ++ checked es2.
Proof.
  induction es1 as [|e es1 IH]; [done|]. destruct e; simpl; by rewrite ?IH.
Qed.

Lemma checked_quiet es : quiet es → checked es = [].
Proof.
  intros [Hq _]. unfold health_checks in Hq.
  induction es as [|e es IH]; [done|]. destruct e; simpl in *; by auto.
Qed.

(** What one server adds to the list of evaluated servers: itself when it is
    processed to the end, itself or nothing when processing raises. *)
Lemma process_server_checked w s h :
  match (process_server w s h).1 with
  | Ret _ => checked (process_server w s h).2 = [s]
  | Raise _ => checked (process_server w s h).2 = []
               ∨ checked (process_server w s h).2 = [s]
  end.
Proof.
  unfold process_server. run.
  destruct (subscript s "name") as [name|e]; run; [|by left].
  match goal with |- context [health_check w s ?h'] =>
    destruct (health_check_events w s h') as (es_hc & Hes & Hq);
    destruct (health_check w s h') as [[[ok detail]|e] es]
  end; simpl in Hes; subst es; run;
    [|right; by rewrite (checked_quiet _ Hq)].
  destruct (truthy ok); run.
  { by rewrite checked_app, (checked_quiet _ Hq). }
  match goal with |- context [restart_service w s ?h'] =>
    destruct (restart_service_events w s h') as (es_r & Hes & Hqr);
    destruct (restart_service w s h') as [[[[code out] err]|e] es]
  end; simpl in Hes; subst es; run;
    [|right; simpl; by rewrite !checked_app, (checked_quiet _ Hq); simpl;
             rewrite (checked_quiet _ Hqr)].
  match goal with |- context [notify_discord w ?m ?h'] =>
    destruct (notify_discord_events w m h') as (es_n & Hes & Hqn);
    destruct (notify_discord w m h') as [[[]|e] es]
  end; simpl in Hes; subst es; run;
    [|right]; simpl;
    rewrite !checked_app, (checked_quiet _ Hq); simpl;
    rewrite !checked_app, (checked_quiet _ Hqr); simpl;
    by rewrite (checked_quiet _ Hqn).
Qed.

(** X19: servers are evaluated in configuration order, each at most once: the
    servers whose health was evaluated during a pass form a prefix of the
    list, and the whole list when the pass completes. *)
Theorem evaluated_in_order w servers h :
  ∃ rest, servers = checked (run_pass w servers h).2 ++ rest
    ∧ match (run_pass w servers h).1 with
      | Ret _ => rest = []
      | Raise _ => True
      end.
Proof.
  unfold run_pass. revert h. induction servers as [|s servers IH]; intros h.
  - by exists [].
  - cbn [for_each]. unfold mbind, M_bind, bind.
    pose proof (process_server_checked w s h) as Hs.
    destruct (process_server w s h) as [[[]|e] seg]; simpl in Hs.
    + destruct (IH (h ++ seg)) as (rest & Hrest & Hdone).
      destruct (for_each (process_server w) servers (h ++ seg)) as [r es'].
      simpl in *. exists rest. rewrite checked_app, Hs. simpl.
      split; [by rewrite <- Hrest | done].
    + simpl. destruct Hs as [-> | ->].
      * by exists (s :: servers).
      * by exists servers.
Qed.

Lemma run_ssh_reliable w (sd : gmap string value) host command h :
  ssh_reliable w → sd !! "host" = Some host →
  ∃ code out err es, run_ssh w (VDict sd) command h = (Ret (code, out, err), es).
Proof.
  intros [Hconnect Hexec] Hhost. unfold run_ssh, getitem. rewrite Hhost. run.
  rewrite Hconnect. run.
  match goal with |- context [ssh_exec w ?h' command] =>
    destruct (Hexec h' command) as (code & out & err & ->)
  end.
  run. by eexists _, _, _, _.
Qed.

Lemma process_server_http_returns w s h :
  ssh_reliable w → http_server s → (process_server w s h).1 = Ret tt.
Proof.
  intros Hw (sd & hc & -> & [name Hname] & [host Hhost] & Hhc & Ht).
  unfold process_server, subscript, getitem. run. rewrite Hname. run.
  match goal with |- context [health_check w (VDict sd) ?h'] =>
    pose proof (health_check_http_returns w sd hc h' Hhc Ht) as Hret;
    destruct (health_check w (VDict sd) h') as [[[ok detail]|e] es]
  end; [|done]. run.
  destruct (truthy ok); run; [done|].
  rewrite restart_service_run_ssh.
  match goal with |- context [run_ssh w (VDict sd) ?c ?h'] =>
    destruct (run_ssh_reliable w sd host c h' Hw Hhost) as (code & out & err & es_r & ->)
  end. run.
  match goal with |- context [notify_discord w ?m ?h'] =>
    destruct (notify_discord_returns w m h') as (es_n & ->)
  end.
  done.
Qed.

Lemma pass_split_balanced w h servers segs :
  pass_split w h servers segs →
  restarts (concat segs) = notifications (concat segs).
Proof.
  induction 1 as [|h s seg servers segs Hs _ IH]; [done|].
  simpl. unfold restarts, notifications in *. rewrite !count_if_app, IH.
  destruct Hs as (? & ok & ? & ? & ? & _ & _ & _ & _ & Hc).
  unfold restarts, notifications in Hc. destruct (truthy ok); lia.
Qed.

Lemma sample_world_ssh_reliable : ssh_reliable sample_world.
Proof.
  split; [done|]. intros h command. simpl.
  destruct (eq_str command "pg_isready"); by eexists _, _, _.
Qed.

Lemma ready_server_is_http_server : http_server (VDict ready_server).
Proof.
  exists ready_server, ready_check.
  split; [done|]. split; [by eexists|]. split; [by eexists|]. by split.
Qed.

(** X20: when SSH never raises, a pass over servers that all carry a name, a
    host and an HTTP check always completes, whatever the probes answer and
    whether or not the webhook works: every server is evaluated once, and
    every restart is followed by its notification. *)
Theorem http_pass_completes w servers h :
  ssh_reliable w →
  Forall http_server servers →
  (run_pass w servers h).1 = Ret tt
  ∧ health_checks (run_pass w servers h).2 = length servers
  ∧ restarts (run_pass w servers h).2 = notifications (run_pass w servers h).2.
Proof.
  intros Hw Hservers.
  assert ((run_pass w servers h).1 = Ret tt) as Hret.
  { unfold run_pass. revert h.
    induction Hservers as [|s servers Hs _ IH]; intros h; [done|].
    cbn [for_each]. unfold mbind, M_bind, bind.
    pose proof (process_server_http_returns w s h Hw Hs) as Hp.
    destruct (process_server w s h) as [r seg]. simpl in Hp. subst r.
    specialize (IH (h ++ seg)).
    destruct (for_each (process_server w) servers (h ++ seg)) as [r es]. done. }
  split; [done|].
  destruct (run_pass w servers h) as [r es] eqn:Hrun. simpl in *. subst r.
  destruct (run_pass_split _ _ _ _ Hrun) as (segs & -> & Hsplit).
  split; [by eapply pass_split_checks | by eapply pass_split_balanced].
Qed.

(** Two copies of the sample web server in the sample world. *)
Lemma http_pass_completes_witness :
  (run_pass sample_world [VDict ready_server; VDict ready_server] []).1 = Ret tt
  ∧ health_checks (run_pass sample_world [VDict ready_server; VDict ready_server] []).2
    = 2%nat
  ∧ restarts (run_pass sample_world [VDict ready_server; VDict ready_server] []).2
    = notifications (run_pass sample_world [VDict ready_server; VDict ready_server] []).2.
Proof.
  apply (http_pass_completes sample_world [VDict ready_server; VDict ready_server] []).
  - exact sample_world_ssh_reliable.
  - repeat constructor; exact ready_server_is_http_server.
Defined.

Lemma health_check_unknown w (sd hc : gmap string value) t h :
  sd !! "health_check" = Some (VDict hc) →
  hc !! "type" = Some t → t ≠ VStr "http" → t ≠ VStr "remote_cmd" →
  health_check w (VDict sd) h =
    (Ret (TBool false, "Unknown health_check type"), [EvHealthCheck (VDict sd)]).
Proof.
  intros Hhc Ht Hhttp Hcmd. unfold health_check, subscript, getitem. run.
  rewrite Hhc. run. rewrite Ht. run.
  by rewrite (eq_str_false _ _ Hhttp), (eq_str_false _ _ Hcmd).
Qed.

(** X21: a server whose check type is not one the program knows is treated as
    unhealthy on every pass: without any probe its service is restarted, and
    when the restart command runs, the server is reported once. *)
Theorem unknown_type_is_restarted w (sd hc : gmap string value) t name h
    code out err es_r :
  sd !! "name" = Some name →
  sd !! "health_check" = Some (VDict hc) →
  hc !! "type" = Some t → t ≠ VStr "http" → t ≠ VStr "remote_cmd" →
  restart_service w (VDict sd)
    (h ++ [EvLog INFO "[%s] Checking health..." [name];
           EvHealthCheck (VDict sd);
           EvLog WARNING "[%s] Unhealthy: %s" [name; VStr "Unknown health_check type"]])
    = (Ret (code, out, err), es_r) →
  ∃ rest,
    process_server w (VDict sd) h =
      (Ret tt,
       EvLog INFO "[%s] Checking health..." [name]
       :: EvHealthCheck (VDict sd)
       :: EvLog WARNING "[%s] Unhealthy: %s" [name; VStr "Unknown health_check type"]
       :: es_r ++ rest)
    ∧ restarts (process_server w (VDict sd) h).2 = 1%nat
    ∧ notifications (process_server w (VDict sd) h).2 = 1%nat.
Proof.
  intros Hname Hhc Ht Hhttp Hcmd Hr.
  pose proof (health_check_unknown w sd hc t
                (h ++ [EvLog INFO "[%s] Checking health..." [name]])
                Hhc Ht Hhttp Hcmd) as Hcheck.
  destruct (process_server_unhealthy_run w sd name h (TBool false)
              "Unknown health_check type" [EvHealthCheck (VDict sd)]
              code out err es_r Hname Hcheck eq_refl Hr) as (es_n & Hrun & _).
  pose proof (process_server_ret _ _ _ _ Hrun)
    as (name' & ok & detail & es & rest & Hn & Hhc' & _ & _ & Hcount).
  simpl in Hn. unfold getitem in Hn. rewrite Hname in Hn. injection Hn as <-.
  rewrite Hcheck in Hhc'. injection Hhc' as <- <- <-. simpl in Hcount.
  rewrite Hrun. simpl. eexists. split; [done | exact Hcount].
Qed.

(** A misspelt "http" in the sample world, where SSH works. *)
Lemma unknown_type_is_restarted_witness :
  restarts (process_server sample_world (VDict misspelt_server) []).2 = 1%nat
  ∧ notifications (process_server sample_world (VDict misspelt_server) []).2 = 1%nat.
Proof.
  destruct (unknown_type_is_restarted sample_world misspelt_server misspelt_check
              (VStr "htpp") (VStr "api") [] 0 "" ""
              [EvRestart (VDict misspelt_server);
               EvSshConnect (VStr "10.0.0.6") (VInt 22) VNone VNone; EvSshOpened;
               EvSshExec (VStr "sudo systemctl restart api"); EvSshClose])
    as (rest & _ & Hcounts); try reflexivity; try discriminate.
  exact Hcounts.
Defined.

(** ** The whole run *)

(** The sample run: the config loads, logging is set up, and the outcome is
    that of the pass over the two sample servers. *)
Lemma run_orchestrator_pass_witness :
  (run_orchestrator sample_world "servers.yaml" []).1 = Ret tt
  ∧ health_checks (run_orchestrator sample_world "servers.yaml" []).2 = 2%nat.
Proof.
  rewrite (run_orchestrator_pass sample_world "servers.yaml" [] sample_config_dict
             [EvOpen "servers.yaml"; EvClose "servers.yaml"] [web_server; db_server]
             eq_refl eq_refl eq_refl).
  split; reflexivity.
Defined.
